(** * A shallow embedding of go-ietools' [buffers] and [pvrz] packages

    Bytes are 8-bit [Z] values, Go byte slices are [list Z], Go strings are
    the [list Z] of their bytes.  A Go [nil] slice is [None] where the code
    tests for it.  A Go run-time panic (slice bounds, index out of range,
    [make] with a negative length) is the result [None] of an [option].
    Stateful methods take the receiver and return the updated receiver. *)

From Stdlib Require Import String ZArith List Lia Bool.
Import ListNotations.
Open Scope Z_scope.

(** ** Errors *)

(** [ietools.ErrOffsetOutOfRange], [ietools.ErrIllegalArguments] (also
    [pvrz.ErrIllegalArguments], a distinct value with the same text), errors of
    the collaborators (zlib, charmap, writers) and the messages of
    [errors.New]/[fmt.Errorf] in package pvrz. *)
Inductive error : Type :=
| ErrOffsetOutOfRange
| ErrIllegalArguments
| ErrPvrIllegalArguments
| ErrExternal (code : Z)
| ErrFormat (msg : string).

(** ** Go slice helpers *)

Definition zlen {A} (l : list A) : Z := Z.of_nat (length l).

(** [l[lo:hi]] for in-range bounds. *)
Definition slice {A} (l : list A) (lo hi : Z) : list A :=
  firstn (Z.to_nat (hi - lo)) (skipn (Z.to_nat lo) l).

(** [copy(arr[pos:pos+dstLen], src)]: copies [min dstLen (len src)]
    elements (memmove semantics, [src] is read before the write). *)
Definition go_copy (arr : list Z) (pos dst_len : Z) (src : list Z) : list Z :=
  let n := Z.min dst_len (zlen src) in
  firstn (Z.to_nat pos) arr ++ firstn (Z.to_nat n) src ++ skipn (Z.to_nat (pos + n)) arr.

(** Overwrite [l] from offset [ofs] on with [bs]. *)
Definition write_at (l : list Z) (ofs : Z) (bs : list Z) : list Z :=
  firstn (Z.to_nat ofs) l ++ bs ++ skipn (Z.to_nat ofs + length bs) l.

(** [binary.LittleEndian] decoding and encoding. *)
Fixpoint le_uint (l : list Z) : Z :=
  match l with
  | [] => 0
  | x :: r => x + 256 * le_uint r
  end.

Fixpoint le_bytes (n : nat) (v : Z) : list Z :=
  match n with
  | O => []
  | S k => (v mod 256) :: le_bytes k (v / 256)
  end.

(** Go conversions [intW(u)] and [uintW(i)]. *)
Definition to_signed (w : Z) (v : Z) : Z :=
  if v <? 2 ^ (w - 1) then v else v - 2 ^ w.

Definition to_unsigned (w : Z) (v : Z) : Z := v mod 2 ^ w.

(** [for i := start; i < start+n; i++]. *)
Definition zseq (start n : Z) : list Z :=
  map (fun k => start + Z.of_nat k) (seq 0 (Z.to_nat n)).

(** The comparison loop of [PutStringEx]/[PutBuffer]:
    [for idx := 0; equal && idx < len(src); idx++ { equal = src[idx] == arr[idx] }],
    where reading past the end of [arr] panics. *)
Fixpoint eq_loop (src arr : list Z) : option bool :=
  match src with
  | [] => Some true
  | x :: xs =>
      match arr with
      | [] => None
      | y :: ys => if x =? y then eq_loop xs ys else Some false
      end
  end.

(** [if offset < 0 || offset + size > len(b.buf)].  The sum is taken in
    [Z]: Go's [int] addition wraps at [2^63], and a wrapped sum lets a huge
    [offset] pass the check, after which the slicing panics.  The model
    covers calls whose [offset + size] fits in an [int]; there the two
    checks agree. *)
Definition out_of_range (ofs size len : Z) : bool :=
  (ofs <? 0) || (len <? ofs + size).

(** Case analysis on the integer comparisons of a goal. *)
Ltac zcase := repeat (match goal with
  | |- context [?a >? ?b] => rewrite (Z.gtb_ltb a b)
  | |- context [?a >=? ?b] => rewrite (Z.geb_leb a b)
  | |- context [?a <? ?b] => destruct (Z.ltb_spec a b)
  | |- context [?a <=? ?b] => destruct (Z.leb_spec a b)
  | |- context [?a =? ?b] => destruct (Z.eqb_spec a b)
  end; simpl; try (exfalso; lia)).

(** Sample collaborators for running the model on concrete inputs: an
    identity charmap codec, a zlib stand-in that passes bytes through and
    an [io.Writer] that accepts everything. *)
Definition sample_codec (_ : unit) (l : list Z) : list Z + error := inl l.
Definition sample_inflate (l : list Z) : (list Z * option error) + error := inl (l, None).
Definition sample_deflate (_ : Z) (l : list Z) : list Z + error := inl l.

(** A texture codec on images that only carry their dimensions. *)
Definition sample_new_rgba (w h : Z) : Z * Z := (w, h).
Definition sample_rgba_copy (w h : Z) (_ : Z * Z) : Z * Z := (w, h).
Definition sample_squish_storage (w h _ : Z) : Z := ((w + 3) / 4) * ((h + 3) / 4) * 8.
Definition sample_squish_compress (m : Z * Z) (_ : Z) (_ : bool) : list Z :=
  repeat 7 (Z.to_nat (((fst m + 3) / 4) * ((snd m + 3) / 4) * 8)).
Definition sample_squish_decompress (w h : Z) (_ : list Z) (_ : Z) : Z * Z := (w, h).

Section GoIETools.

(** ** Collaborators outside the repository *)

(** [*charmap.Charmap] values and the decoder/encoder of package
    [golang.org/x/text/encoding/charmap]. *)
Variable charmap : Type.
Variable Windows1252 : charmap.
Variable charmap_decode : charmap -> list Z -> list Z + error.
Variable charmap_encode : charmap -> list Z -> list Z + error.

(** [compress/zlib] reading: [inr e] when [zlib.NewReader] fails, otherwise
    the bytes the read loop of [DecompressInto] collects before the stream
    ends and the non-EOF error that ended it, if any. *)
Variable zlib_inflate : list Z -> (list Z * option error) + error.
(** [compress/zlib] writing at a level accepted by [zlib.NewWriterLevel]:
    the bytes [zw.Write] and [zw.Flush] emit into the sink, or the error. *)
Variable zlib_deflate : Z -> list Z -> list Z + error.
(** An [io.Writer]: the error [w.Write] returns for the given bytes. *)
Variable writer : list Z -> option error.

(** ** Package ietools *)

(** [AnsiToUtf8(buffer, cm)] with a non-nil charmap. *)
Definition AnsiToUtf8 (buffer : list Z) (cm : charmap) : list Z + error :=
  match buffer with
  | [] => inl []
  | _ => charmap_decode cm buffer
  end.

(** [Utf8ToAnsi(text, cm)] with a non-nil charmap. *)
Definition Utf8ToAnsi (text : list Z) (cm : charmap) : list Z + error :=
  charmap_encode cm text.

(** ** Package buffers: type [Buffer] *)

Record Buffer : Type := mkBuffer {
  buf : list Z;
  dirty : bool;
  err : option error
}.

Definition is_err (b : Buffer) : bool :=
  match err b with Some _ => true | None => false end.

Definition set_err (b : Buffer) (e : error) : Buffer :=
  mkBuffer (buf b) (dirty b) (Some e).

(** [Wrap(buf)]: a nil slice is replaced by [make([]byte, 256)]. *)
Definition Wrap (data : option (list Z)) : Buffer :=
  let l := match data with None => repeat 0 256 | Some l => l end in
  mkBuffer l false None.

(** [Create()] is [Wrap(nil)]. *)
Definition Create : Buffer := Wrap None.

Definition Bytes (b : Buffer) : list Z :=
  if is_err b then [] else buf b.

Definition Error (b : Buffer) : option error := err b.


Definition BufferLength (b : Buffer) : Z := zlen (buf b).




Definition GetUint8 (b : Buffer) (offset : Z) : Buffer * Z :=
  if is_err b then (b, 0)
  else if (offset <? 0) || (offset >=? zlen (buf b)) then (set_err b ErrOffsetOutOfRange, 0)
  else (b, nth (Z.to_nat offset) (buf b) 0).

Definition GetInt8 (b : Buffer) (offset : Z) : Buffer * Z :=
  let (b', v) := GetUint8 b offset in (b', to_signed 8 v).

Definition GetUint16 (b : Buffer) (offset : Z) : Buffer * Z :=
  if is_err b then (b, 0)
  else if out_of_range offset 2 (zlen (buf b)) then (set_err b ErrOffsetOutOfRange, 0)
  else (b, le_uint (slice (buf b) offset (offset + 2))).

Definition GetInt16 (b : Buffer) (offset : Z) : Buffer * Z :=
  let (b', v) := GetUint16 b offset in (b', to_signed 16 v).

Definition GetUint32 (b : Buffer) (offset : Z) : Buffer * Z :=
  if is_err b then (b, 0)
  else if out_of_range offset 4 (zlen (buf b)) then (set_err b ErrOffsetOutOfRange, 0)
  else (b, le_uint (slice (buf b) offset (offset + 4))).

Definition GetInt32 (b : Buffer) (offset : Z) : Buffer * Z :=
  let (b', v) := GetUint32 b offset in (b', to_signed 32 v).



Fixpoint cut_at_null (l : list Z) : list Z :=
  match l with
  | [] => []
  | x :: r => if x =? 0 then [] else x :: cut_at_null r
  end.

(** [GetStringEx(offset, size, null, cmap)]; [cmap = None] is a nil charmap.
    [s, b.err = ietools.AnsiToUtf8(...)] stores [nil] on success. *)
Definition GetStringEx (b : Buffer) (offset size : Z) (null : bool)
    (cmap : option charmap) : Buffer * list Z :=
  if is_err b then (b, [])
  else if size <=? 0 then (b, [])
  else if out_of_range offset size (zlen (buf b)) then (set_err b ErrOffsetOutOfRange, [])
  else
    let s := slice (buf b) offset (offset + size) in
    let s := if null then cut_at_null s else s in
    match cmap with
    | Some cm =>
        match AnsiToUtf8 s cm with
        | inl str => (mkBuffer (buf b) (dirty b) None, str)
        | inr e => (set_err b e, [])
        end
    | None => (b, s)
    end.


(** [GetBuffer(offset, size)]; [make([]byte, size)] panics for [size < 0]. *)
Definition GetBuffer (b : Buffer) (offset size : Z) : option (Buffer * list Z) :=
  if is_err b then Some (b, [])
  else if out_of_range offset size (zlen (buf b)) then Some (set_err b ErrOffsetOutOfRange, [])
  else if size <? 0 then None
  else Some (b, slice (buf b) offset (offset + size)).

(** Typed writes: write-if-different, return the previous value. *)
Definition PutUint8 (b : Buffer) (offset value : Z) : Buffer * Z :=
  if is_err b then (b, 0)
  else if (offset <? 0) || (offset >=? zlen (buf b)) then (set_err b ErrOffsetOutOfRange, 0)
  else
    let retVal := nth (Z.to_nat offset) (buf b) 0 in
    if retVal =? value then (b, retVal)
    else (mkBuffer (write_at (buf b) offset [value]) true (err b), retVal).

Definition PutInt8 (b : Buffer) (offset value : Z) : Buffer * Z :=
  let (b', v) := PutUint8 b offset (to_unsigned 8 value) in (b', to_signed 8 v).

Definition PutUint16 (b : Buffer) (offset value : Z) : Buffer * Z :=
  if is_err b then (b, 0)
  else if out_of_range offset 2 (zlen (buf b)) then (set_err b ErrOffsetOutOfRange, 0)
  else
    let retVal := le_uint (slice (buf b) offset (offset + 2)) in
    if retVal =? value then (b, retVal)
    else (mkBuffer (write_at (buf b) offset (le_bytes 2 value)) true (err b), retVal).

Definition PutInt16 (b : Buffer) (offset value : Z) : Buffer * Z :=
  let (b', v) := PutUint16 b offset (to_unsigned 16 value) in (b', to_signed 16 v).

Definition PutUint32 (b : Buffer) (offset value : Z) : Buffer * Z :=
  if is_err b then (b, 0)
  else if out_of_range offset 4 (zlen (buf b)) then (set_err b ErrOffsetOutOfRange, 0)
  else
    let retVal := le_uint (slice (buf b) offset (offset + 4)) in
    if retVal =? value then (b, retVal)
    else (mkBuffer (write_at (buf b) offset (le_bytes 4 value)) true (err b), retVal).

Definition PutInt32 (b : Buffer) (offset value : Z) : Buffer * Z :=
  let (b', v) := PutUint32 b offset (to_unsigned 32 value) in (b', to_signed 32 v).

(** [PutStringEx(offset, size, value, cmap)]: when the encoded bytes [src]
    differ from the buffer, [copy(b.buf[offset:offset+size], src)] and zero
    [b.buf[offset+len(src) .. offset+size)]. *)
Definition PutStringEx (b : Buffer) (offset size : Z) (value : list Z)
    (cmap : option charmap) : option Buffer :=
  if is_err b then Some b
  else if size <=? 0 then Some b
  else if out_of_range offset size (zlen (buf b)) then Some (set_err b ErrOffsetOutOfRange)
  else
    match match cmap with Some cm => Utf8ToAnsi value cm | None => inl value end with
    | inr e => Some (set_err b e)
    | inl src =>
        match eq_loop src (skipn (Z.to_nat offset) (buf b)) with
        | None => None
        | Some true => Some b
        | Some false =>
            Some (mkBuffer
                    (write_at (buf b) offset
                       (firstn (Z.to_nat size) src ++ repeat 0 (Z.to_nat size - length src)))
                    true None)
        end
    end.


Definition PutBuffer (b : Buffer) (offset : Z) (src : list Z) : option Buffer :=
  if is_err b then Some b
  else if out_of_range offset (zlen src) (zlen (buf b)) then Some (set_err b ErrOffsetOutOfRange)
  else
    match eq_loop src (skipn (Z.to_nat offset) (buf b)) with
    | None => None
    | Some true => Some b
    | Some false => Some (mkBuffer (write_at (buf b) offset src) true (err b))
    end.


(** [InsertBytes(offset, size)]:
    [b.buf = append(b.buf, make([]byte, size)...)] then
    [copy(b.buf[offset+size:l+size], b.buf[offset:l])]. *)
Definition InsertBytes (b : Buffer) (offset size : Z) : Buffer :=
  if is_err b then b
  else if (offset <? 0) || (offset >? zlen (buf b)) then set_err b ErrOffsetOutOfRange
  else if size >? 0 then
    let l := zlen (buf b) in
    let arr := buf b ++ repeat 0 (Z.to_nat size) in
    let arr := go_copy arr (offset + size) (l + size - (offset + size)) (slice arr offset l) in
    mkBuffer arr true (err b)
  else b.

(** [DeleteBytes(offset, size)]: [b.buf[size:]] and [b.buf[:len(b.buf)-size]]
    panic for [size > len(b.buf)]; [buf2] shares the backing array of [b.buf]. *)
Definition DeleteBytes (b : Buffer) (offset size : Z) : option Buffer :=
  if is_err b then Some b
  else if (offset <? 0) || (offset >? zlen (buf b)) then Some (set_err b ErrOffsetOutOfRange)
  else if size >? 0 then
    let len := zlen (buf b) in
    if offset =? 0 then
      if size >? len then None
      else Some (mkBuffer (skipn (Z.to_nat size) (buf b)) true (err b))
    else if size >? len then None
    else
      let n2 := len - size in
      let arr := go_copy (buf b) 0 offset (slice (buf b) 0 offset) in
      let arr := if offset + size <? n2
                 then go_copy arr offset (n2 - offset) (slice arr (offset + size) len)
                 else arr in
      Some (mkBuffer (firstn (Z.to_nat n2) arr) true (err b))
  else Some b.

(** [DecompressInto(offset, size, buffer)]: the result is the target slice on
    failure, the collected bytes otherwise. *)
Definition DecompressInto (b : Buffer) (offset size : Z) (target : list Z) : Buffer * list Z :=
  if is_err b then (b, target)
  else if (size <=? 0) || out_of_range offset size (zlen (buf b))
  then (set_err b ErrOffsetOutOfRange, target)
  else
    match zlib_inflate (slice (buf b) offset (offset + size)) with
    | inr e => (set_err b e, target)
    | inl (out, None) => (b, out)
    | inl (out, Some e) => (set_err b e, out)
    end.

(** Grow or shrink the region [offset, offset+size) of a buffer to [n] bytes,
    as [DecompressReplace] and [CompressReplace] do before copying. *)
Definition resize_region (b : Buffer) (offset size n : Z) : option Buffer :=
  if n >? size then Some (InsertBytes b (offset + size) (n - size))
  else if n <? size then DeleteBytes b (offset + n) (size - n)
  else Some b.

Definition DecompressReplace (b : Buffer) (offset size : Z) : option (Buffer * Z) :=
  if is_err b then Some (b, 0)
  else
    let size := if size <? 0 then 0 else size in
    let (b1, out) := DecompressInto b offset size [] in
    if is_err b1 then Some (b1, 0)
    else
      match resize_region b1 offset size (zlen out) with
      | None => None
      | Some b2 =>
          if is_err b2 then Some (b2, 0)
          else Some (mkBuffer (go_copy (buf b2) offset (zlen out) out) true (err b2), zlen out)
      end.

(** [zlib.NewWriterLevel] rejects levels outside [HuffmanOnly (-2) .. BestCompression (9)]. *)
Definition zlib_level_error (level : Z) : error :=
  ErrFormat "zlib: invalid compression level".

(** [CompressInto(offset, size, level, buffer)]: the level is clamped to
    [-2, 9]; the sink [bytes.NewBuffer(buffer)] starts with the target's bytes;
    the result is cut to [bytesWritten] (= [size]) bytes. *)
Definition CompressInto (b : Buffer) (offset size level : Z) (target : list Z) : Buffer * list Z :=
  if is_err b then (b, target)
  else if (size <? 0) || out_of_range offset size (zlen (buf b))
  then (set_err b ErrOffsetOutOfRange, target)
  else
    let level := if level <? -2 then -2 else if level >? 9 then 9 else level in
    if (level <? -2) || (level >? 9) then (set_err b (zlib_level_error level), target)
    else
      match zlib_deflate level (slice (buf b) offset (offset + size)) with
      | inr e => (set_err b e, target)
      | inl out =>
          let res := target ++ out in
          let bytesWritten := size in
          (b, if bytesWritten <? zlen res then firstn (Z.to_nat bytesWritten) res else res)
      end.

Definition CompressReplace (b : Buffer) (offset size level : Z) : option (Buffer * Z) :=
  if is_err b then Some (b, 0)
  else
    let size := if size <? 0 then 0 else size in
    let (b1, out) := CompressInto b offset size level [] in
    if is_err b1 then Some (b1, 0)
    else
      match resize_region b1 offset size (zlen out) with
      | None => None
      | Some b2 =>
          if is_err b2 then Some (b2, 0)
          else Some (mkBuffer (go_copy (buf b2) offset (zlen out) out) true (err b2), zlen out)
      end.

(** The reads of [GetOffsetArray]: [switch width] over the field widths. *)
Definition read_ofs_field (b : Buffer) (pos width : Z) : Buffer * Z :=
  if width =? 2 then GetInt16 b pos
  else if width =? 4 then GetInt32 b pos
  else (b, 0).

Definition read_cnt_field (b : Buffer) (pos width : Z) : Buffer * Z :=
  if width =? 1 then GetInt8 b pos
  else if width =? 2 then GetInt16 b pos
  else if width =? 4 then GetInt32 b pos
  else (b, 0).

(** [GetOffsetArray(sevenValues...)], validation lines as in the source
    (the fifth check tests [sevenValues[3] == 3]).  [ofs + i*size] is
    computed in [Z], which is Go's [int] result while it does not overflow. *)
Definition GetOffsetArray (b : Buffer) (sevenValues : list Z) : Buffer * list Z :=
  if is_err b then (b, [])
  else
    match sevenValues with
    | v0 :: v1 :: v2 :: v3 :: v4 :: v5 :: v6 :: _ =>
        if (v0 <=? 0) || (v2 <=? 0) then (set_err b ErrIllegalArguments, [])
        else if negb (v1 =? 2) && negb (v1 =? 4) then (set_err b ErrIllegalArguments, [])
        else if (v3 <? 1) || (v3 >? 4) || (v3 =? 3) then (set_err b ErrIllegalArguments, [])
        else if (v5 <? 0) || (v5 >? 4) || (v3 =? 3) then (set_err b ErrIllegalArguments, [])
        else if v6 <=? 0 then (set_err b ErrIllegalArguments, [])
        else
          let (b1, ofs) := read_ofs_field b v0 v1 in
          let (b2, cnt) := read_cnt_field b1 v2 v3 in
          let (b3, idx) := if v4 >? 0 then read_cnt_field b2 v4 v5 else (b2, 0) in
          let size := v6 in
          (b3, if (ofs >? 0) && (cnt >? 0) && (cnt >=? idx)
               then map (fun i => ofs + i * size) (zseq idx (cnt - idx))
               else [])
    | _ => (set_err b ErrIllegalArguments, [])
    end.


(** ** The methods of [Buffer] as one step function *)


(** Return values: [VWrite] is what reached the [io.Writer] ([None]: no write). *)
Inductive value : Type :=
| VNone
| VInt (z : Z)
| VBool (x : bool)
| VBytes (l : list Z)
| VInts (l : list Z)
| VWrite (o : option (list Z))
| VErr (e : option error).





(** ** Package pvrz *)

(** Image values of packages [image] and [image/draw], and the drawing
    steps the code composes from them. *)
Variable image rect point color : Type.
(** [img.Bounds().Dx()], [img.Bounds().Dy()]. *)
Variable img_dx img_dy : image -> Z.
(** [image.NewRGBA(image.Rect(0, 0, w, h))]: a blank canvas. *)
Variable new_rgba : Z -> Z -> image.
(** [imgOut := image.NewRGBA(image.Rect(0, 0, w, h))] followed by
    [draw.Draw(imgOut, imgOut.Bounds(), src, src.Bounds().Min, draw.Src)]. *)
Variable rgba_copy : Z -> Z -> image -> image.
(** [draw.Draw(dst, image.Rectangle{dp, dp.Add(r.Size())}, src, r.Min, draw.Src)]. *)
Variable draw_rect : image -> image -> rect -> point -> image.
(** The body of [GetImageRect]: a new RGBA image of [r.Size()] drawn from [r.Min]. *)
Variable sub_image : image -> rect -> image.
(** [draw.Draw(dst, r, &image.Uniform{col}, image.ZP, draw.Src)]. *)
Variable fill_rect : image -> rect -> color -> image.

(** Package [go-squish]: its flag constants, [GetStorageRequirements],
    [DecompressImage] (with the conversion of [decodeTexture] to a
    [draw.Image]) and [CompressImage] (with the NRGBA copy of [encodeTexture];
    the boolean selects [METRIC_PERCEPTUAL] over [METRIC_UNIFORM]). *)
Variables FLAGS_DXT1 FLAGS_DXT3 FLAGS_DXT5 FLAGS_SOURCE_BGRA FLAGS_RANGE_FIT
  FLAGS_CLUSTER_FIT FLAGS_ITERATIVE_CLUSTER_FIT FLAGS_WEIGHT_BY_ALPHA : Z.
Variable squish_storage : Z -> Z -> Z -> Z.
Variable squish_decompress : Z -> Z -> list Z -> Z -> image.
Variable squish_compress : image -> Z -> bool -> list Z.

Definition FLAGS_PREMULTIPLIED : Z := 2.
Definition TYPE_BC1 : Z := 7.
Definition TYPE_BC2 : Z := 9.
Definition TYPE_BC3 : Z := 11.
Definition SPACE_LRGB : Z := 0.
Definition SPACE_SRGB : Z := 1.
Definition CHAN_UBN : Z := 0.
Definition CHAN_SBN : Z := 1.
Definition CHAN_UB : Z := 2.
Definition CHAN_SB : Z := 3.
Definition QUALITY_LOW : Z := 0.
Definition QUALITY_DEFAULT : Z := 1.
Definition QUALITY_HIGH : Z := 2.
Definition versionSig : Z := 55727696. (* 0x03525650 *)

Record pvrInfo : Type := mkInfo {
  flags : Z;
  pixelType : Z;
  colorSpace : Z;
  channelType : Z;
  height : Z;
  width : Z;
  depth : Z;
  numSurfaces : Z;
  numFaces : Z;
  numMipMaps : Z;
  meta : list Z
}.

Record Pvr : Type := mkPvr {
  info : pvrInfo;
  img : image;
  perr : option error;
  quality : Z;
  weightByAlpha : bool;
  useMetric : bool
}.

Definition has_err (p : Pvr) : bool :=
  match perr p with Some _ => true | None => false end.

Definition set_perr (p : Pvr) (e : error) : Pvr :=
  mkPvr (info p) (img p) (Some e) (quality p) (weightByAlpha p) (useMetric p).

Definition set_info (p : Pvr) (i : pvrInfo) : Pvr :=
  mkPvr i (img p) (perr p) (quality p) (weightByAlpha p) (useMetric p).

Definition set_img (p : Pvr) (m : image) : Pvr :=
  mkPvr (info p) m (perr p) (quality p) (weightByAlpha p) (useMetric p).

Definition set_quality (p : Pvr) (q : Z) : Pvr :=
  mkPvr (info p) (img p) (perr p) q (weightByAlpha p) (useMetric p).

Definition set_weightByAlpha (p : Pvr) (x : bool) : Pvr :=
  mkPvr (info p) (img p) (perr p) (quality p) x (useMetric p).

Definition set_useMetric (p : Pvr) (x : bool) : Pvr :=
  mkPvr (info p) (img p) (perr p) (quality p) (weightByAlpha p) x.

(** Assignments [p.info.f = v] of single header fields. *)
Definition upd_info (f : pvrInfo -> pvrInfo) (p : Pvr) : Pvr := set_info p (f (info p)).

Definition info_flags (v : Z) (i : pvrInfo) : pvrInfo :=
  mkInfo v (pixelType i) (colorSpace i) (channelType i) (height i) (width i)
    (depth i) (numSurfaces i) (numFaces i) (numMipMaps i) (meta i).
Definition info_pixelType (v : Z) (i : pvrInfo) : pvrInfo :=
  mkInfo (flags i) v (colorSpace i) (channelType i) (height i) (width i)
    (depth i) (numSurfaces i) (numFaces i) (numMipMaps i) (meta i).
Definition info_colorSpace (v : Z) (i : pvrInfo) : pvrInfo :=
  mkInfo (flags i) (pixelType i) v (channelType i) (height i) (width i)
    (depth i) (numSurfaces i) (numFaces i) (numMipMaps i) (meta i).
Definition info_channelType (v : Z) (i : pvrInfo) : pvrInfo :=
  mkInfo (flags i) (pixelType i) (colorSpace i) v (height i) (width i)
    (depth i) (numSurfaces i) (numFaces i) (numMipMaps i) (meta i).
Definition info_height (v : Z) (i : pvrInfo) : pvrInfo :=
  mkInfo (flags i) (pixelType i) (colorSpace i) (channelType i) v (width i)
    (depth i) (numSurfaces i) (numFaces i) (numMipMaps i) (meta i).
Definition info_width (v : Z) (i : pvrInfo) : pvrInfo :=
  mkInfo (flags i) (pixelType i) (colorSpace i) (channelType i) (height i) v
    (depth i) (numSurfaces i) (numFaces i) (numMipMaps i) (meta i).
Definition info_depth (v : Z) (i : pvrInfo) : pvrInfo :=
  mkInfo (flags i) (pixelType i) (colorSpace i) (channelType i) (height i) (width i)
    v (numSurfaces i) (numFaces i) (numMipMaps i) (meta i).
Definition info_numSurfaces (v : Z) (i : pvrInfo) : pvrInfo :=
  mkInfo (flags i) (pixelType i) (colorSpace i) (channelType i) (height i) (width i)
    (depth i) v (numFaces i) (numMipMaps i) (meta i).
Definition info_numFaces (v : Z) (i : pvrInfo) : pvrInfo :=
  mkInfo (flags i) (pixelType i) (colorSpace i) (channelType i) (height i) (width i)
    (depth i) (numSurfaces i) v (numMipMaps i) (meta i).
Definition info_numMipMaps (v : Z) (i : pvrInfo) : pvrInfo :=
  mkInfo (flags i) (pixelType i) (colorSpace i) (channelType i) (height i) (width i)
    (depth i) (numSurfaces i) (numFaces i) v (meta i).
Definition info_meta (v : list Z) (i : pvrInfo) : pvrInfo :=
  mkInfo (flags i) (pixelType i) (colorSpace i) (channelType i) (height i) (width i)
    (depth i) (numSurfaces i) (numFaces i) (numMipMaps i) v.

Definition CreateNew (w h pt : Z) : Pvr :=
  let w := if w <? 1 then 1 else w in
  let h := if h <? 1 then 1 else h in
  mkPvr (mkInfo 0 pt SPACE_LRGB CHAN_UBN h w 1 1 1 1 [])
    (new_rgba w h) None QUALITY_DEFAULT false false.

Definition pixelTypeSupported (value : Z) : bool :=
  (value =? TYPE_BC1) || (value =? TYPE_BC2) || (value =? TYPE_BC3).

Definition resizeCanvas (m : image) (w h : Z) (preserve : bool) : image :=
  if preserve then rgba_copy w h m else new_rgba w h.

Definition decodeTexture (data : list Z) (w h pt : Z) : option image :=
  if (w <=? 0) || (h <=? 0) then None
  else
    let dxt := if pt =? TYPE_BC1 then Some FLAGS_DXT1
               else if pt =? TYPE_BC2 then Some FLAGS_DXT3
               else if pt =? TYPE_BC3 then Some FLAGS_DXT5
               else None in
    match dxt with
    | None => None
    | Some f => Some (squish_decompress w h data (Z.lor FLAGS_SOURCE_BGRA f))
    end.

Definition encodeTexture (m : image) (pt q : Z) (wba um : bool) : option (list Z) :=
  let w := img_dx m in
  let h := img_dy m in
  if (w <? 1) || negb (Z.land w 3 =? 0) || (h <? 1) || negb (Z.land h 3 =? 0) then None
  else
    let q := if q <? QUALITY_LOW then QUALITY_LOW else q in
    let q := if q >? QUALITY_HIGH then QUALITY_HIGH else q in
    let dxt := if pt =? TYPE_BC1 then Some FLAGS_DXT1
               else if pt =? TYPE_BC2 then Some FLAGS_DXT3
               else if pt =? TYPE_BC3 then Some FLAGS_DXT5
               else None in
    match dxt with
    | None => None
    | Some f =>
        let nw := Z.land (w + 3) (Z.lnot 3) in
        let nh := Z.land (h + 3) (Z.lnot 3) in
        let m := if negb (nw =? w) || negb (nh =? h) then resizeCanvas m nw nh true else m in
        let f := Z.lor f (if q =? QUALITY_LOW then FLAGS_RANGE_FIT
                          else if q =? QUALITY_HIGH then FLAGS_ITERATIVE_CLUSTER_FIT
                          else FLAGS_CLUSTER_FIT) in
        let f := if wba then Z.lor f FLAGS_WEIGHT_BY_ALPHA else f in
        Some (squish_compress m f um)
    end.

(** Go's [int32(x)] of an [int]. *)
Definition int32 (x : Z) : Z := to_signed 32 (to_unsigned 32 x).

Definition prepareHeader (p : Pvr) : option (list Z) :=
  let i := info p in
  let b := InsertBytes Create 0 52 in
  let b := fst (PutInt32 b 0 versionSig) in
  let b := fst (PutInt32 b 4 (int32 (flags i))) in
  let b := fst (PutInt32 b 8 (int32 (pixelType i))) in
  let b := fst (PutInt32 b 12 0) in
  let b := fst (PutInt32 b 16 (int32 (colorSpace i))) in
  let b := fst (PutInt32 b 20 (int32 (channelType i))) in
  let b := fst (PutInt32 b 24 (int32 (height i))) in
  let b := fst (PutInt32 b 28 (int32 (width i))) in
  let b := fst (PutInt32 b 32 (int32 (depth i))) in
  let b := fst (PutInt32 b 36 (int32 (numSurfaces i))) in
  let b := fst (PutInt32 b 40 (int32 (numFaces i))) in
  let b := fst (PutInt32 b 44 (int32 (numMipMaps i))) in
  let b := fst (PutInt32 b 48 (int32 (zlen (meta i)))) in
  if zlen (meta i) >? 0 then
    match PutBuffer (InsertBytes b 52 (zlen (meta i))) 52 (meta i) with
    | Some b => Some (Bytes b)
    | None => None
    end
  else Some (Bytes b).

(** [exportPvr()]: the receiver and the serialized bytes ([None]: nil). *)
Definition exportPvr (p : Pvr) : option (Pvr * option (list Z)) :=
  match prepareHeader p with
  | None => None
  | Some hdr =>
      match encodeTexture (img p) (pixelType (info p)) (quality p) (weightByAlpha p) (useMetric p) with
      | None => Some (set_perr p (ErrFormat "Unable to encode texture data"), None)
      | Some out => Some (p, Some (hdr ++ out))
      end
  end.

(** [Save(w, compress)]: the receiver and the bytes handed to [w.Write]. *)
Definition SavePvr (p : Pvr) (compress : bool) : option (Pvr * option (list Z)) :=
  if has_err p then Some (p, None)
  else
    match exportPvr p with
    | None => None
    | Some (p1, data) =>
        if has_err p1 then Some (p1, None)
        else
          let b := Wrap data in
          let ob := if compress then
                      let pvrLen := BufferLength b in
                      match CompressReplace b 0 pvrLen 9 with
                      | None => None
                      | Some (b, _) => Some (fst (PutInt32 (InsertBytes b 0 4) 0 (int32 pvrLen)))
                      end
                    else Some b in
          match ob with
          | None => None
          | Some b => Some (p1, Some (Bytes b))
          end
    end.

(** *** Accessors and setters of [Pvr] *)








Definition GetWidth (p : Pvr) : Z := if has_err p then 0 else width (info p).

Definition GetHeight (p : Pvr) : Z := if has_err p then 0 else height (info p).


(** [GetPixelType()] has no test of the error state. *)
Definition GetPixelType (p : Pvr) : Z := pixelType (info p).

Definition SetPixelType (p : Pvr) (v : Z) : Pvr :=
  if has_err p then p
  else if negb (pixelTypeSupported v) then set_perr p ErrPvrIllegalArguments
  else upd_info (info_pixelType v) p.

Definition GetChannelType (p : Pvr) : Z := if has_err p then 0 else channelType (info p).

Definition SetChannelType (p : Pvr) (v : Z) : Pvr :=
  if has_err p then p
  else if (v <? CHAN_UBN) || (v >? CHAN_SB) then set_perr p ErrPvrIllegalArguments
  else upd_info (info_channelType v) p.

Definition GetColorSpace (p : Pvr) : Z := if has_err p then 0 else colorSpace (info p).

Definition SetColorSpace (p : Pvr) (v : Z) : Pvr :=
  if has_err p then p
  else if negb (v =? SPACE_LRGB) && negb (v =? SPACE_SRGB) then set_perr p ErrPvrIllegalArguments
  else upd_info (info_colorSpace v) p.

Definition GetQuality (p : Pvr) : Z := if has_err p then 0 else quality p.

(** [SetQuality(q)] clamps [q] to [QUALITY_LOW .. QUALITY_HIGH]. *)
Definition SetQuality (p : Pvr) (q : Z) : Pvr :=
  if has_err p then p
  else
    let q := if q <? QUALITY_LOW then QUALITY_LOW else q in
    let q := if q >? QUALITY_HIGH then QUALITY_HIGH else q in
    set_quality p q.

Definition GetWeightByAlpha (p : Pvr) : bool := if has_err p then false else weightByAlpha p.

Definition SetWeightByAlpha (p : Pvr) (x : bool) : Pvr :=
  if has_err p then p else set_weightByAlpha p x.

Definition IsPerceptiveMetric (p : Pvr) : bool := if has_err p then false else useMetric p.

Definition SetPerceptiveMetric (p : Pvr) (x : bool) : Pvr :=
  if has_err p then p else set_useMetric p x.

(** *** Import: a statement-level monad with early [return] *)

(** A computation on the receiver: [None] is a panic, [Some (p, None)] a
    [return] taken after [p.err = ...], [Some (p, Some a)] falling through. *)
Definition PM (A : Type) : Type := Pvr -> option (Pvr * option A).

Definition pret {A} (a : A) : PM A := fun p => Some (p, Some a).

Definition pbind {A B} (m : PM A) (k : A -> PM B) : PM B :=
  fun p => match m p with
           | None => None
           | Some (p', None) => Some (p', None)
           | Some (p', Some a) => k a p'
           end.

(** [p.err = e; return]. *)
Definition pfail {A} (e : error) : PM A := fun p => Some (set_perr p e, None).

(** A panic of a buffer method, or its result. *)
Definition plift {A} (o : option A) : PM A :=
  match o with None => fun _ => None | Some a => pret a end.

(** An assignment to a field of the receiver. *)
Definition passign (f : Pvr -> Pvr) : PM unit := fun p => Some (f p, Some tt).

(** [if cond { p.err = e; return }]. *)
Definition pcheck (cond : bool) (e : error) : PM unit :=
  if cond then pfail e else pret tt.

(** [if err != nil { p.err = err; return }]. *)
Definition pcheck_err (o : option error) : PM unit :=
  match o with Some e => pfail e | None => pret tt end.

(** [if x == nil { p.err = e; return }]. *)
Definition pexpect {A} (o : option A) (e : error) : PM A :=
  match o with Some a => pret a | None => pfail e end.

Local Notation "'let*' x ':=' m 'in' k" := (pbind m (fun x => k))
  (at level 200, x name, m at level 100, k at level 200).
Local Notation "'let*' ' x ':=' m 'in' k" := (pbind m (fun x => k))
  (at level 200, x pattern, m at level 100, k at level 200).

Definition fmt (msg : string) : error := ErrFormat msg.

(** [importPvr(data)]; [None] is a nil slice.  The local buffer is a value;
    the receiver is only written by [p.err = ...; return] and by the
    assignments at the end. *)
Definition importPvr (data : option (list Z)) : PM unit :=
  let* d := pexpect data (fmt "No input buffer specified") in
  let buf := Wrap (Some d) in
  let* _ := pcheck_err (Error buf) in
  let* _ := pcheck (BufferLength buf <? 4) (fmt "Input buffer too small") in
  let* '(buf, sig) := pret (GetInt32 buf 0) in
  let* '(buf, sig) :=
    (if negb (sig =? versionSig) then
       let* _ := pcheck ((sig <? 52) || (sig >? 2 ^ 25))
                   (fmt "PVR target size outside of accepted limits") in
       let* '(buf, _) := plift (DecompressReplace buf 4 (BufferLength buf - 4)) in
       let* _ := pcheck_err (Error buf) in
       let* buf := plift (DeleteBytes buf 0 4) in
       let* _ := pcheck (BufferLength buf <? sig) (fmt "PVRZ data size mismatch") in
       let* buf := (if BufferLength buf >? sig
                    then plift (DeleteBytes buf sig (BufferLength buf - sig))
                    else pret buf) in
       pret (GetInt32 buf 0)
     else pret (buf, sig)) in
  let* _ := pcheck (negb (sig =? versionSig)) (fmt "Invalid PVR header signature") in
  let* _ := pcheck (BufferLength buf <? 52) (fmt "PVR input buffer too small") in
  let* '(buf, flags) := pret (GetInt32 buf 4) in
  let* '(buf, pf) := pret (GetInt32 buf 12) in
  let* _ := pcheck (negb (pf =? 0)) (fmt "Extended pixel format not supported") in
  let* '(buf, pixelType) := pret (GetInt32 buf 8) in
  let* _ := pcheck (negb (pixelTypeSupported pixelType)) (fmt "Unsupported pixel format") in
  let* '(buf, colorSpace) := pret (GetInt32 buf 16) in
  let* _ := pcheck ((colorSpace <? 0) || (colorSpace >? 1)) (fmt "Unsupported color space") in
  let* '(buf, channelType) := pret (GetInt32 buf 20) in
  let* _ := pcheck ((channelType <? CHAN_UBN) || (channelType >? CHAN_SB))
              (fmt "Unsupported channel type") in
  let* '(buf, height) := pret (GetInt32 buf 24) in
  let* _ := pcheck ((height <? 0) || (height >? 4096)) (fmt "Unsupported texture height") in
  let* _ := pcheck (negb (Z.land height 3 =? 0)) (fmt "Texture height must be a multiple of 4") in
  let* '(buf, width) := pret (GetInt32 buf 28) in
  let* _ := pcheck ((width <? 0) || (width >? 4096)) (fmt "Unsupported texture width") in
  let* _ := pcheck (negb (Z.land width 3 =? 0)) (fmt "Texture width must be a multiple of 4") in
  let* '(buf, depth) := pret (GetInt32 buf 32) in
  let* _ := pcheck (negb (depth =? 1)) (fmt "Unsupported texture depth") in
  let* '(buf, numSurfaces) := pret (GetInt32 buf 36) in
  let* _ := pcheck (negb (numSurfaces =? 1)) (fmt "Unsupported number of texture surfaces") in
  let* '(buf, numFaces) := pret (GetInt32 buf 40) in
  let* _ := pcheck (negb (numFaces =? 1)) (fmt "Unsupported number of texture faces") in
  let* '(buf, numMipMaps) := pret (GetInt32 buf 44) in
  let* _ := pcheck (negb (numMipMaps =? 1)) (fmt "Unsupported number of texture mip maps") in
  let* '(buf, metaLen) := pret (GetInt32 buf 48) in
  let metaLen := if metaLen <? 0 then 0 else metaLen in
  let* _ := pcheck (BufferLength buf <? 52 + metaLen) (fmt "Metadata size mismatch") in
  let* '(buf, meta) := (if metaLen >? 0 then plift (GetBuffer buf 52 metaLen)
                        else pret (buf, [])) in
  let ofsData := 52 + metaLen in
  let dxtFlags := if pixelType =? TYPE_BC1 then FLAGS_DXT1
                  else if pixelType =? TYPE_BC2 then FLAGS_DXT3
                  else if pixelType =? TYPE_BC3 then FLAGS_DXT5
                  else 0 in
  let texSize := squish_storage width height dxtFlags in
  let* _ := pcheck (BufferLength buf - ofsData <? texSize) (fmt "PVR input buffer too small") in
  let* m := pexpect (decodeTexture (skipn (Z.to_nat ofsData) (Bytes buf)) width height pixelType)
              (fmt "Error while decoding texture data") in
  let* _ := passign (upd_info (info_flags flags)) in
  let* _ := passign (upd_info (info_pixelType pixelType)) in
  let* _ := passign (upd_info (info_colorSpace colorSpace)) in
  let* _ := passign (upd_info (info_channelType channelType)) in
  let* _ := passign (upd_info (info_height height)) in
  let* _ := passign (upd_info (info_width width)) in
  let* _ := passign (upd_info (info_depth depth)) in
  let* _ := passign (upd_info (info_numSurfaces numSurfaces)) in
  let* _ := passign (upd_info (info_numFaces numFaces)) in
  let* _ := passign (upd_info (info_numMipMaps numMipMaps)) in
  let* _ := passign (upd_info (info_meta meta)) in
  passign (fun p => set_img p m).

(** [Load(r)] for a reader that yields [data] and then [io.EOF]. *)
Definition LoadPvr (data : list Z) : option Pvr :=
  match importPvr (Some data) (CreateNew 0 0 TYPE_BC1) with
  | Some (p, _) => Some p
  | None => None
  end.

(** *** The methods of [Pvr] as one step function *)







(** *** Helpers for reasoning about the header of [prepareHeader] *)

(** The values [prepareHeader] writes with [PutInt32] at offsets 0, 4, ..., 48. *)
Definition header_fields (i : pvrInfo) : list Z :=
  [versionSig; int32 (flags i); int32 (pixelType i); 0; int32 (colorSpace i);
   int32 (channelType i); int32 (height i); int32 (width i); int32 (depth i);
   int32 (numSurfaces i); int32 (numFaces i); int32 (numMipMaps i); int32 (zlen (meta i))].

(** [PutInt32] of the values [vals] one after the other, from offset [o]. *)
Fixpoint put_fields (b : Buffer) (o : Z) (vals : list Z) : Buffer :=
  match vals with
  | [] => b
  | v :: vs => put_fields (fst (PutInt32 b o v)) (o + 4) vs
  end.

(** ** Package tables *)

(** [strings.TrimSpace] and [strings.ToUpper] on the bytes of a string. *)
Variable trim_space : list Z -> list Z.
Variable to_upper : list Z -> list Z.

(** *** Go indexing *)

Definition obind {A B} (o : option A) (k : A -> option B) : option B :=
  match o with None => None | Some a => k a end.

Local Notation "'let?' x ':=' m 'in' k" := (obind m (fun x => k))
  (at level 200, x name, m at level 100, k at level 200).
Local Notation "'let?' ' x ':=' m 'in' k" := (obind m (fun x => k))
  (at level 200, x pattern, m at level 100, k at level 200).

(** [l[i]]; an index out of range panics. *)
Definition go_index {A} (l : list A) (i : Z) : option A :=
  if i <? 0 then None else nth_error l (Z.to_nat i).

Fixpoint set_nth {A} (n : nat) (x : A) (l : list A) : list A :=
  match l, n with
  | [], _ => []
  | _ :: r, O => x :: r
  | y :: r, S n' => y :: set_nth n' x r
  end.

(** [l[i] = x]; an index out of range panics. *)
Definition go_set {A} (l : list A) (i : Z) (x : A) : option (list A) :=
  if (i <? 0) || (zlen l <=? i) then None else Some (set_nth (Z.to_nat i) x l).

(** [l[:hi]] (within the length; a slice's spare capacity is never read
    back here). *)
Definition go_reslice {A} (l : list A) (hi : Z) : option (list A) :=
  if (hi <? 0) || (zlen l <? hi) then None else Some (firstn (Z.to_nat hi) l).

(** [for i := from; i > downto; i-- { l[i] = l[i-1] }], run with at least as
    many rounds of fuel as the loop has iterations. *)
Fixpoint shift_down_loop {A} (fuel : nat) (l : list A) (i downto : Z) : option (list A) :=
  match fuel with
  | O => Some l
  | S f =>
      if i >? downto then
        let? x := go_index l (i - 1) in
        let? l := go_set l i x in
        shift_down_loop f l (i - 1) downto
      else Some l
  end.

Definition shift_down {A} (l : list A) (from downto : Z) : option (list A) :=
  shift_down_loop (Z.to_nat (from - downto)) l from downto.

(** [for i := from; i < upto; i++ { l[i] = l[i-1] }] ([DeleteItem]). *)
Fixpoint copy_up_loop {A} (fuel : nat) (l : list A) (i upto : Z) : option (list A) :=
  match fuel with
  | O => Some l
  | S f =>
      if i <? upto then
        let? x := go_index l (i - 1) in
        let? l := go_set l i x in
        copy_up_loop f l (i + 1) upto
      else Some l
  end.

Definition copy_up {A} (l : list A) (from upto : Z) : option (list A) :=
  copy_up_loop (Z.to_nat (upto - from)) l from upto.

(** [for i := from; i < upto; i++ { l[i-1] = l[i] }] ([DeleteRow]). *)
Fixpoint copy_down_loop {A} (fuel : nat) (l : list A) (i upto : Z) : option (list A) :=
  match fuel with
  | O => Some l
  | S f =>
      if i <? upto then
        let? x := go_index l i in
        let? l := go_set l (i - 1) x in
        copy_down_loop f l (i + 1) upto
      else Some l
  end.

Definition copy_down {A} (l : list A) (from upto : Z) : option (list A) :=
  copy_down_loop (Z.to_nat (upto - from)) l from upto.

(** [s1 != s2] on strings. *)
Definition str_neq (s1 s2 : list Z) : bool :=
  if list_eq_dec Z.eq_dec s1 s2 then false else true.

(** *** Type [Table] *)

(** A row is a [[]string], a string the [list Z] of its bytes.  Rows are
    never shared between two entries of [table] (every row is a fresh
    slice or moved, never copied), so the table is a value. *)
Record Table : Type := mkTable {
  table : list (list (list Z));
  cmap : option charmap;
  tdirty : bool;
  terr : option error
}.

Definition set_terr (t : Table) (e : error) : Table :=
  mkTable (table t) (cmap t) (tdirty t) (Some e).

Definition TableError (t : Table) : option error := terr t.

Definition TableClearError (t : Table) : Table := mkTable (table t) (cmap t) (tdirty t) None.

Definition TableIsModified (t : Table) : bool := tdirty t.

Definition TableClearModified (t : Table) : Table := mkTable (table t) (cmap t) false (terr t).

Definition Columns (t : Table) : Z :=
  match terr t with
  | Some _ => 0
  | None => fold_left (fun numCols v => if numCols <? zlen v then zlen v else numCols) (table t) 0
  end.

Definition Rows (t : Table) (cols : Z) : Z :=
  match terr t with
  | Some _ => 0
  | None =>
      let cols := if cols <? 0 then 0 else cols in
      if cols >? 0 then fold_left (fun numRows v => if zlen v >=? cols then numRows + 1 else numRows) (table t) 0
      else zlen (table t)
  end.

(** The loop [for r, match := 0, 0; r < len(t.table); r++] of [absoluteRow]. *)
Fixpoint absoluteRow_loop (rows : list (list (list Z))) (r match_ row minCols : Z) : Z :=
  match rows with
  | [] => -1
  | v :: rest =>
      if zlen v >=? minCols then
        if match_ =? row then r else absoluteRow_loop rest (r + 1) (match_ + 1) row minCols
      else absoluteRow_loop rest (r + 1) match_ row minCols
  end.

Definition absoluteRow (t : Table) (row minCols : Z) : Z :=
  let minCols := if minCols <? 0 then 0 else minCols in
  if (row >=? 0) && (row <? zlen (table t)) then absoluteRow_loop (table t) 0 0 row minCols
  else -1.

Definition RowColumns (t : Table) (row minCols : Z) : option Z :=
  match terr t with
  | Some _ => Some 0
  | None =>
      let r := absoluteRow t row minCols in
      if r <? 0 then Some (-1)
      else let? v := go_index (table t) r in Some (zlen v)
  end.

(** ["2DA"] and ["V1.0"]. *)
Definition str_2DA : list Z := [50; 68; 65].
Definition str_V1_0 : list Z := [86; 49; 46; 48].

Definition Is2DA (t : Table) : option bool :=
  match terr t with
  | Some _ => Some false
  | None =>
      if Columns t <? 2 then Some false
      else if Rows t 0 <? 2 then Some false
      else
        let? r0 := go_index (table t) 0 in
        let? s := go_index r0 0 in
        if str_neq (to_upper s) str_2DA then Some false
        else
          let? s := go_index r0 1 in
          if str_neq (to_upper s) str_V1_0 then Some false
          else
            let? r1 := go_index (table t) 1 in
            if negb (zlen r1 =? 1) then Some false else Some true
  end.

Definition GetItem (t : Table) (row col minCols : Z) : option (Table * list Z) :=
  match terr t with
  | Some _ => Some (t, [])
  | None =>
      if (row <? 0) || (col <? 0) then Some (set_terr t ErrIllegalArguments, [])
      else
        let minCols := if minCols <? 0 then 0 else minCols in
        let row := absoluteRow t row minCols in
        if row <? 0 then Some (set_terr t ErrIllegalArguments, [])
        else
          let? r := go_index (table t) row in
          if col >=? zlen r then Some (set_terr t ErrIllegalArguments, [])
          else let? s := go_index r col in Some (t, s)
  end.

Definition PutItem (t : Table) (row col minCols : Z) (item : list Z) : option Table :=
  match terr t with
  | Some _ => Some t
  | None =>
      let item := trim_space item in
      if (row <? 0) || (col <? 0) || (zlen item =? 0) then Some (set_terr t ErrIllegalArguments)
      else
        let minCols := if minCols <? 0 then 0 else minCols in
        let row := absoluteRow t row minCols in
        if row <? 0 then Some (set_terr t ErrIllegalArguments)
        else
          let? r := go_index (table t) row in
          if col >=? zlen r then Some (set_terr t ErrIllegalArguments)
          else
            let? s := go_index r col in
            let dirty := if str_neq s item then true else tdirty t in
            let? r := go_set r col item in
            let? tb := go_set (table t) row r in
            Some (mkTable tb (cmap t) dirty None)
  end.

Definition InsertItem (t : Table) (row col minCols : Z) (item : list Z) : option Table :=
  match terr t with
  | Some _ => Some t
  | None =>
      let item := trim_space item in
      if (row <? 0) || (col <? 0) || (zlen item =? 0) then Some (set_terr t ErrIllegalArguments)
      else
        let minCols := if minCols <? 0 then 0 else minCols in
        let row := absoluteRow t row minCols in
        if row <? 0 then Some (set_terr t ErrIllegalArguments)
        else
          let? r := go_index (table t) row in
          if col >? zlen r then Some (set_terr t ErrIllegalArguments)
          else
            let r := r ++ [[]] in
            let? r := shift_down r (zlen r - 1) col in
            let? r := go_set r col item in
            let? tb := go_set (table t) row r in
            Some (mkTable tb (cmap t) true None)
  end.

Definition DeleteItem (t : Table) (row col minCols : Z) : option (Table * list Z) :=
  match terr t with
  | Some _ => Some (t, [])
  | None =>
      if (row <? 0) || (col <? 0) then Some (set_terr t ErrIllegalArguments, [])
      else
        let minCols := if minCols <? 0 then 0 else minCols in
        let row := absoluteRow t row minCols in
        if row <? 0 then Some (set_terr t ErrIllegalArguments, [])
        else
          let? r := go_index (table t) row in
          if col >=? zlen r then Some (set_terr t ErrIllegalArguments, [])
          else
            let? retVal := go_index r col in
            let? r := copy_up r (col + 1) (zlen r) in
            let? r := go_reslice r (zlen r - 1) in
            let? tb := go_set (table t) row r in
            Some (mkTable tb (cmap t) true None, retVal)
  end.

(** [InsertRow(rowIndex, items)]; [None] for [items] is a nil slice. *)
Definition InsertRow (t : Table) (rowIndex : Z) (items : option (list (list Z))) : option Table :=
  match terr t with
  | Some _ => Some t
  | None =>
      match items with
      | None | Some [] => Some t
      | Some items =>
          let tb := table t ++ [[]] in
          let? tb := shift_down tb (zlen tb - 1) rowIndex in
          let? tb := go_set tb rowIndex [] in
          let r := fold_left (fun r v => let v := trim_space v in
                                         if zlen v >? 0 then r ++ [v] else r) items [] in
          let? tb := go_set tb rowIndex r in
          Some (mkTable tb (cmap t) true None)
      end
  end.

Definition DeleteRow (t : Table) (rowIndex : Z) : option Table :=
  match terr t with
  | Some _ => Some t
  | None =>
      if (rowIndex <? 0) || (rowIndex >=? zlen (table t)) then Some (set_terr t ErrIllegalArguments)
      else
        let? tb := copy_down (table t) (rowIndex + 1) (zlen (table t)) in
        let? tb := go_reslice tb (zlen tb - 1) in
        Some (mkTable tb (cmap t) true None)
  end.

(** *** Parsing *)

Definition MODE_EMPTY : Z := 0.
Definition MODE_SPACE : Z := 1.
Definition MODE_TOKEN : Z := 2.

(** The one-byte matches of [regNewline] ([\f\n\r\v]) and [regSpace]
    ([\a\b\t ]); [regToken] matches every other byte (a byte that is not
    valid UTF-8 on its own is read as U+FFFD, which the negated class
    accepts). *)
Definition is_newline (c : Z) : bool := (c =? 12) || (c =? 10) || (c =? 13) || (c =? 11).
Definition is_space (c : Z) : bool := (c =? 7) || (c =? 8) || (c =? 9) || (c =? 32).
Definition is_token (c : Z) : bool := negb (is_newline c || is_space c).

(** [s, err = ietools.AnsiToUtf8(raw, cm)] when [cm != nil], and
    [string(raw)] when [cm == nil || err != nil]. *)
Definition decode_item (cm : option charmap) (raw : list Z) : list Z :=
  match cm with
  | Some c => match AnsiToUtf8 raw c with inl s => s | inr _ => raw end
  | None => raw
  end.

(** The local variables of [importRow]'s loop. *)
Record RowScan : Type := mkRowScan {
  mode : Z;
  curCol : Z;
  posToken : Z;
  line : list (list Z);
  newPos : Z
}.

(** [for pos := ...; pos < len(data) && mode != MODE_EMPTY; pos++ { switch mode ... }]. *)
Fixpoint importRow_loop (data : list Z) (cm : option charmap) (fuel : nat) (pos : Z) (st : RowScan)
    : option RowScan :=
  match fuel with
  | O => Some st
  | S f =>
      if (pos <? zlen data) && negb (mode st =? MODE_EMPTY) then
        let? c := go_index data pos in
        let st :=
          if mode st =? MODE_SPACE then
            if is_token c then mkRowScan MODE_TOKEN (curCol st) pos (line st) (newPos st)
            else if is_newline c then mkRowScan MODE_EMPTY (curCol st) (posToken st) (line st) pos
            else st
          else if mode st =? MODE_TOKEN then
            if is_space c then
              let s := decode_item cm (slice data (posToken st) pos) in
              let l := if curCol st >=? zlen (line st) then line st ++ [s] else line st in
              mkRowScan MODE_SPACE (curCol st + 1) (-1) l (newPos st)
            else if is_newline c then mkRowScan MODE_EMPTY (curCol st) (posToken st) (line st) pos
            else st
          else st in
        importRow_loop data cm f (pos + 1) st
      else Some st
  end.

(** [importRow(data, startPos, cm)]; [None] for [data] is a nil slice. *)
Definition importRow (data : option (list Z)) (startPos : Z) (cm : option charmap)
    : option (list (list Z) * Z) :=
  match data with
  | None => Some ([], startPos)
  | Some data =>
      let? st := importRow_loop data cm (Z.to_nat (zlen data - startPos)) startPos
                   (mkRowScan MODE_SPACE 0 (-1) [] startPos) in
      let np := if negb (mode st =? MODE_EMPTY) then zlen data else newPos st in
      let? l :=
        if posToken st >=? 0 then
          let? raw := (if (posToken st <? 0) || (np <? posToken st) || (zlen data <? np) then None
                       else Some (slice data (posToken st) np)) in
          let s := decode_item cm raw in
          Some (if curCol st >=? zlen (line st) then line st ++ [s] else line st)
        else Some (line st) in
      let np := if mode st =? MODE_EMPTY then np + 1 else np in
      Some (l, np)
  end.

(** [for pos := 0; pos < len(data); { line, pos = importRow(data, pos, cm) ... }]:
    every call returns a position beyond the one it was given, so
    [len(data)] rounds of fuel cover all iterations. *)
Fixpoint importTable_loop (data : list Z) (cm : option charmap) (fuel : nat) (pos : Z)
    (tb : list (list (list Z))) : option (list (list (list Z))) :=
  match fuel with
  | O => Some tb
  | S f =>
      if pos <? zlen data then
        let? r := importRow (Some data) pos cm in
        let tb := if zlen (fst r) >? 0 then tb ++ [fst r] else tb in
        importTable_loop data cm f (snd r) tb
      else Some tb
  end.

Definition importTable (data : option (list Z)) (cm : option charmap) : option (list (list (list Z))) :=
  match data with
  | None => Some []
  | Some data => importTable_loop data cm (length data) 0 []
  end.

(** [LoadEx(r, cmap)]: [data] are the bytes the read loop collects and
    [rerr] the error that ends it, [None] for [io.EOF]. *)
Definition LoadEx (data : list Z) (rerr : option error) (cm : option charmap) : option Table :=
  match rerr with
  | Some e => Some (mkTable [] None false (Some e))
  | None =>
      let? tb := importTable (Some data) cm in
      Some (mkTable tb cm false None)
  end.

(** *** Writing *)

(** [item, err = ietools.Utf8ToAnsi(s, cm)] when [cm != nil], and
    [[]byte(s)] when [cm == nil || err != nil]. *)
Definition encode_item (cm : option charmap) (s : list Z) : list Z :=
  match cm with
  | Some c => match Utf8ToAnsi s c with inl b => b | inr _ => s end
  | None => s
  end.

(** The inner loop of the column widths: [minW] for column [col] over the
    rows [0 .. t.Rows(0)-1]. *)
Definition column_minW (t : Table) (is2DA : bool) (col : Z) : option Z :=
  fold_left (fun acc row =>
    let? minW := acc in
    let? r := go_index (table t) row in
    if col <? zlen r then
      if is2DA && (row =? 2) then
        if col =? 0 then Some minW
        else let? s := go_index r (col - 1) in Some (if zlen s >? minW then zlen s else minW)
      else let? s := go_index r col in Some (if zlen s >? minW then zlen s else minW)
    else Some minW) (zseq 0 (Rows t 0)) (Some 0).

(** [colWidths] and [maxWidth]. *)
Definition column_widths (t : Table) (is2DA prettify : bool) : option (list Z * Z) :=
  fold_left (fun acc col =>
    let? '(colWidths, maxWidth) := acc in
    let? minW := (if prettify then
                    let? minW := column_minW t is2DA col in
                    Some (Z.land (minW + 3) (Z.lnot 1))
                  else Some 0) in
    Some (colWidths ++ [minW], if minW >? maxWidth then minW else maxWidth))
    (zseq 0 (Columns t)) (Some ([], 0)).

(** The bytes of the inner loop [for col := 0; col < len(t.table[row]); col++]. *)
Fixpoint export_items (cm : option charmap) (colWidths spaces : list Z) (shift : Z)
    (r : list (list Z)) (col : Z) (items : list (list Z)) : option (list Z) :=
  match items with
  | [] => Some []
  | s :: rest =>
      let item := encode_item cm s in
      let? out :=
        if zlen item >? 0 then
          if col + 1 <? zlen r then
            let? cw := go_index colWidths (col + shift) in
            let width := if cw >? zlen item + 1 then cw else zlen item + 1 in
            let? sp := go_reslice spaces (width - zlen item) in
            Some (item ++ sp)
          else Some item
        else Some [] in
      let? more := export_items cm colWidths spaces shift r (col + 1) rest in
      Some (out ++ more)
  end.

(** The bytes of one row [row]. *)
Definition export_row (cm : option charmap) (is2DA prettify : bool) (colWidths spaces nl : list Z)
    (row : Z) (r : list (list Z)) : option (list Z) :=
  let? '(lead, shift) :=
    if (row =? 2) && is2DA && prettify then
      let? cw := go_index colWidths 0 in
      let? sp := go_reslice spaces cw in
      Some (sp, 1)
    else Some ([], 0) in
  let? items := export_items cm colWidths spaces shift r 0 r in
  Some (lead ++ items ++ nl).

Fixpoint export_rows (cm : option charmap) (is2DA prettify : bool) (colWidths spaces nl : list Z)
    (row : Z) (rows : list (list (list Z))) : option (list Z) :=
  match rows with
  | [] => Some []
  | r :: rest =>
      let? out := export_row cm is2DA prettify colWidths spaces nl row r in
      let? more := export_rows cm is2DA prettify colWidths spaces nl (row + 1) rest in
      Some (out ++ more)
  end.

Definition exportTable (t : Table) (useWinBreak prettify : bool) (cm : option charmap) : option (list Z) :=
  let nl := if useWinBreak then [13; 10] else [10] in
  let? is2DA := Is2DA t in
  let? '(colWidths, maxWidth) := column_widths t is2DA prettify in
  let spaces := repeat 32 (Z.to_nat (maxWidth + 1)) in
  if zlen (table t) >? 0 then export_rows cm is2DA prettify colWidths spaces nl 0 (table t)
  else Some nl.

(** [SaveEx(w, cmap, prettify)]: the receiver and the bytes handed to
    [w.Write], if any. *)
Definition SaveEx (t : Table) (cm : option charmap) (prettify : bool) : option (Table * option (list Z)) :=
  match terr t with
  | Some _ => Some (t, None)
  | None =>
      let? data := exportTable t true prettify cm in
      match writer data with
      | Some e => Some (set_terr t e, Some data)
      | None => Some (mkTable (table t) (cmap t) false None, Some data)
      end
  end.

Definition TableSave (t : Table) (prettify : bool) : option (Table * option (list Z)) :=
  SaveEx t (cmap t) prettify.

(** *** Helpers for stating properties of [Table] *)

(** The indices of the rows with at least [minCols] items, in order. *)
Definition rows_with (tb : list (list (list Z))) (minCols : Z) : list nat :=
  filter (fun i => zlen (nth i tb []) >=? minCols) (seq 0 (length tb)).
(** ** Properties *)

(** The signed little-endian value of the [w]-byte field at [pos], if the
    field lies inside [l]. *)
Definition read_field (l : list Z) (pos w : Z) : option Z :=
  if out_of_range pos w (zlen l) then None
  else Some (to_signed (8 * w) (le_uint (slice l pos (pos + w)))).

(** Computations on the receiver that leave it alone unless they return
    early with an error. *)
Definition pvr_ro {A} (m : PM A) : Prop :=
  forall p p' r, m p = Some (p', r) ->
    match r with Some _ => p' = p | None => exists e, p' = set_perr p e end.

(** Computations that always fall through and keep the error state. *)
Definition pvr_commit {A} (m : PM A) : Prop :=
  forall p p' r, m p = Some (p', r) -> r <> None /\ perr p' = perr p.

(** Computations that either return early having changed nothing but the
    error, or fall through keeping the error state. *)
Definition pvr_safe {A} (m : PM A) : Prop :=
  forall p p' r, m p = Some (p', r) ->
    match r with Some _ => perr p' = perr p | None => exists e, p' = set_perr p e end.

(** *** Insertion and deletion *)

Lemma slice_full_tail (l r : list Z) (o : nat) :
  (o <= length l)%nat ->
  slice (l ++ r) (Z.of_nat o) (Z.of_nat (length l)) = skipn o l.
Proof.
  intros Ho. unfold slice. rewrite Nat2Z.id, skipn_app.
  replace (o - length l)%nat with 0%nat by lia. simpl.
  rewrite firstn_app, length_skipn.
  replace (Z.to_nat (Z.of_nat (length l) - Z.of_nat o)) with (length l - o)%nat by lia.
  rewrite firstn_all2 by (rewrite length_skipn; lia).
  replace (length l - o - (length l - o))%nat with 0%nat by lia.
  simpl. apply app_nil_r.
Qed.

Lemma InsertBytes_buf (l : list Z) (d : bool) (o n : nat) :
  (o <= length l)%nat -> (0 < n)%nat ->
  InsertBytes (mkBuffer l d None) (Z.of_nat o) (Z.of_nat n)
  = mkBuffer (firstn (o + n) (l ++ repeat 0 n) ++ skipn o l) true None.
Proof.
  intros Ho Hn. unfold InsertBytes, is_err, zlen; simpl.
  zcase.
  f_equal. rewrite Nat2Z.id.
  rewrite slice_full_tail by exact Ho.
  unfold go_copy, zlen. rewrite length_skipn.
  replace (Z.to_nat (Z.of_nat o + Z.of_nat n)) with (o + n)%nat by lia.
  replace (Z.to_nat (Z.min (Z.of_nat (length l) + Z.of_nat n - (Z.of_nat o + Z.of_nat n))
            (Z.of_nat (length l - o)))) with (length l - o)%nat by lia.
  rewrite (skipn_all2 (l ++ repeat 0 n)) by (rewrite length_app, repeat_length; lia).
  rewrite app_nil_r, (firstn_all2 (skipn o l)) by (rewrite length_skipn; lia).
  reflexivity.
Qed.

Lemma firstn_repeat_prefix (l : list Z) (o n : nat) :
  (o <= length l)%nat -> firstn o (firstn (o + n) (l ++ repeat 0 n)) = firstn o l.
Proof.
  intros Ho. rewrite firstn_firstn. replace (Nat.min o (o + n)) with o by lia.
  rewrite firstn_app. replace (o - length l)%nat with 0%nat by lia. simpl. apply app_nil_r.
Qed.

Lemma length_prefix (l : list Z) (o n : nat) :
  (o <= length l)%nat -> length (firstn (o + n) (l ++ repeat 0 n)) = (o + n)%nat.
Proof.
  intros Ho. rewrite length_firstn, length_app, repeat_length. lia.
Qed.

Lemma go_copy_self (arr : list Z) (k : nat) :
  (k <= length arr)%nat -> go_copy arr 0 (Z.of_nat k) (slice arr 0 (Z.of_nat k)) = arr.
Proof.
  intros Hk. unfold go_copy, slice, zlen. simpl.
  rewrite Z.sub_0_r, Nat2Z.id, length_firstn.
  replace (Z.to_nat (Z.min (Z.of_nat k) (Z.of_nat (Nat.min k (length arr))))) with k by lia.
  rewrite firstn_firstn, Nat.min_id.
  replace (Z.to_nat (Z.min (Z.of_nat k) (Z.of_nat (Nat.min k (length arr))))) with k by lia.
  apply firstn_skipn.
Qed.

(** Claim C1: on an error-free buffer, [InsertBytes(o, n)] followed by
    [DeleteBytes(o, n)], for [0 <= o <= BufferLength] and [n >= 0], terminates
    without panic and restores the original content (hence the length)
    and leaves the error state clear. *)
Theorem InsertBytes_DeleteBytes (b : Buffer) (o n : Z) :
  err b = None -> 0 <= o <= BufferLength b -> 0 <= n ->
  exists b', DeleteBytes (InsertBytes b o n) o n = Some b' /\ buf b' = buf b /\ err b' = None.
Proof.
  destruct b as [l d e]; simpl; intros -> Ho Hn. unfold BufferLength, zlen in Ho; simpl in Ho.
  destruct (Z.eq_dec n 0) as [->|Hn0].
  - exists (mkBuffer l d None). unfold InsertBytes, DeleteBytes, is_err, zlen; simpl. zcase; auto.
  - rewrite <- (Z2Nat.id o), <- (Z2Nat.id n) by lia.
    assert (Ho' : (Z.to_nat o <= length l)%nat) by lia.
    assert (Hn' : (0 < Z.to_nat n)%nat) by lia.
    set (o' := Z.to_nat o) in *. set (n' := Z.to_nat n) in *.
    rewrite InsertBytes_buf by assumption.
    pose proof (length_prefix l o' n' Ho') as HP.
    set (P := firstn (o' + n') (l ++ repeat 0 n')) in *.
    assert (HR : length (P ++ skipn o' l) = (length l + n')%nat) by (rewrite length_app, length_skipn; lia).
    unfold DeleteBytes, is_err, zlen; simpl. rewrite HR.
    zcase; rewrite ?Nat2Z.id.
    + (* offset 0: b.buf[size:] *)
      eexists; split; [reflexivity|]. split; [|reflexivity]. simpl.
      rewrite skipn_app, HP. replace o' with 0%nat in * by lia.
      rewrite (skipn_all2 P) by lia. simpl. rewrite Nat.sub_diag. reflexivity.
    + (* shifting the tail left *)
      eexists; split; [reflexivity|]. split; [|reflexivity]. simpl.
      rewrite go_copy_self by (rewrite HR; lia).
      unfold slice at 1.
      replace (Z.to_nat (Z.of_nat (length l + n') - (Z.of_nat o' + Z.of_nat n'))) with (length l - o')%nat by lia.
      replace (Z.to_nat (Z.of_nat o' + Z.of_nat n')) with (length P) by lia.
      rewrite skipn_app, skipn_all, Nat.sub_diag. simpl.
      rewrite (firstn_all2 (skipn o' l)) by (rewrite length_skipn; lia).
      unfold go_copy, zlen. rewrite length_skipn, Nat2Z.id.
      replace (Z.to_nat (Z.min (Z.of_nat (length l + n') - Z.of_nat n' - Z.of_nat o') (Z.of_nat (length l - o'))))
        with (length l - o')%nat by lia.
      rewrite (firstn_all2 (skipn o' l)) by (rewrite length_skipn; lia).
      assert (HF : firstn o' (P ++ skipn o' l) = firstn o' l).
      { rewrite firstn_app. replace (o' - length P)%nat with 0%nat by lia. simpl.
        rewrite app_nil_r. unfold P. apply firstn_repeat_prefix; exact Ho'. }
      rewrite HF, app_assoc, firstn_skipn.
      replace (Z.to_nat (Z.of_nat (length l + n') - Z.of_nat n')) with (length l) by lia.
      rewrite firstn_app, firstn_all, Nat.sub_diag. simpl. apply app_nil_r.
    + (* offset 0: b.buf[size:] *)
      eexists; split; [reflexivity|]. split; [|reflexivity]. simpl.
      rewrite skipn_app, HP. replace o' with 0%nat in * by lia.
      rewrite (skipn_all2 P) by lia. simpl. rewrite Nat.sub_diag. reflexivity.
    + (* no shift: the result is the prefix of length len(b.buf)-size *)
      eexists; split; [reflexivity|]. split; [|reflexivity]. simpl.
      rewrite go_copy_self by (rewrite HR; lia).
      replace (Z.to_nat (Z.of_nat (length l + n') - Z.of_nat n')) with (length l) by lia.
      rewrite firstn_app, HP. replace (length l - (o' + n'))%nat with 0%nat by lia. simpl.
      rewrite app_nil_r. unfold P. rewrite firstn_firstn. replace (Nat.min (length l) (o' + n')) with (length l) by lia.
      rewrite firstn_app, firstn_all, Nat.sub_diag. simpl. apply app_nil_r.
Qed.


(** *** Sticky error state *)


Lemma has_err_true (p : Pvr) : perr p <> None -> has_err p = true.
Proof. unfold has_err. destruct (perr p); congruence. Qed.







(** Claim C2: [GetPixelType] is the one getter of [Pvr] without the
    [if p.err != nil] guard.  On a [Pvr] in the error state it returns the
    stored pixel type, while [GetWidth], [GetHeight], [GetChannelType],
    [GetColorSpace] and [GetQuality] return 0 and [GetWeightByAlpha] and
    [IsPerceptiveMetric] return [false]. *)
Theorem GetPixelType_ignores_error (p : Pvr) :
  perr p <> None ->
  GetPixelType p = pixelType (info p) /\
  GetWidth p = 0 /\ GetHeight p = 0 /\ GetChannelType p = 0 /\
  GetColorSpace p = 0 /\ GetQuality p = 0 /\
  GetWeightByAlpha p = false /\ IsPerceptiveMetric p = false.
Proof using.
  intros Hp. pose proof (has_err_true p Hp) as He.
  unfold GetPixelType, GetWidth, GetHeight, GetChannelType, GetColorSpace,
    GetQuality, GetWeightByAlpha, IsPerceptiveMetric.
  rewrite He. repeat split.
Qed.


(** *** Bounds checks *)

Lemma is_err_false (b : Buffer) : err b = None -> is_err b = false.
Proof. unfold is_err. intros ->. reflexivity. Qed.

(** Claim C3: [DeleteBytes] only checks [0 <= offset <= BufferLength],
    not [offset + size <= BufferLength].  On an error-free buffer with
    [size > BufferLength] it panics ([b.buf[size:]] or
    [b.buf[:len(b.buf)-size]] is out of bounds) instead of setting
    [ErrOffsetOutOfRange].  With [offset + size > BufferLength] and
    [size <= BufferLength] it sets no error and deletes the wrong bytes:
    on [[1; 2; 3; 4]], [DeleteBytes(2, 3)] leaves [[1]] and
    [DeleteBytes(2, 5)] panics. *)
Theorem DeleteBytes_unchecked_size :
  (forall (b : Buffer) (o n : Z),
     err b = None -> 0 <= o <= BufferLength b -> BufferLength b < n ->
     DeleteBytes b o n = None) /\
  DeleteBytes (mkBuffer [1; 2; 3; 4] false None) 2 3 = Some (mkBuffer [1] true None) /\
  DeleteBytes (mkBuffer [1; 2; 3; 4] false None) 2 5 = None.
Proof using.
  split; [|split; reflexivity].
  intros b o n Hb Ho Hn. pose proof (is_err_false b Hb) as He.
  unfold BufferLength in *. unfold DeleteBytes. rewrite He. zcase; auto.
Qed.

(** *** Import *)

Lemma ro_pret {A} (a : A) : pvr_ro (pret a).
Proof. intros p p' r H. injection H as <- <-. reflexivity. Qed.

Lemma ro_pfail {A} (e : error) : @pvr_ro A (pfail e).
Proof. intros p p' r H. injection H as <- <-. exists e. reflexivity. Qed.

Lemma ro_plift {A} (o : option A) : pvr_ro (plift o).
Proof. destruct o; [apply ro_pret | intros p p' r H; discriminate]. Qed.

Lemma ro_pcheck (c : bool) (e : error) : pvr_ro (pcheck c e).
Proof. destruct c; [apply ro_pfail | apply ro_pret]. Qed.

Lemma ro_pcheck_err (o : option error) : pvr_ro (pcheck_err o).
Proof. destruct o; [apply ro_pfail | apply ro_pret]. Qed.

Lemma ro_pexpect {A} (o : option A) (e : error) : pvr_ro (pexpect o e).
Proof. destruct o; [apply ro_pret | apply ro_pfail]. Qed.

Lemma ro_pbind {A B} (m : PM A) (k : A -> PM B) :
  pvr_ro m -> (forall a, pvr_ro (k a)) -> pvr_ro (pbind m k).
Proof.
  intros Hm Hk p p' r H. unfold pbind in H.
  destruct (m p) as [[p1 [a|]]|] eqn:E; [| |discriminate].
  - pose proof (Hm _ _ _ E) as ->. exact (Hk a _ _ _ H).
  - injection H as <- <-. exact (Hm _ _ _ E).
Qed.

Lemma commit_passign (f : Pvr -> Pvr) :
  (forall p, perr (f p) = perr p) -> pvr_commit (passign f).
Proof. intros Hf p p' r H. injection H as <- <-. split; [discriminate | apply Hf]. Qed.

Lemma commit_pbind {A B} (m : PM A) (k : A -> PM B) :
  pvr_commit m -> (forall a, pvr_commit (k a)) -> pvr_commit (pbind m k).
Proof.
  intros Hm Hk p p' r H. unfold pbind in H.
  destruct (m p) as [[p1 [a|]]|] eqn:E; [| |discriminate].
  - destruct (Hm _ _ _ E) as [_ H1]. destruct (Hk a _ _ _ H) as [H2 H3].
    split; congruence.
  - destruct (Hm _ _ _ E) as [H1 _]. congruence.
Qed.

Lemma safe_of_commit {A} (m : PM A) : pvr_commit m -> pvr_safe m.
Proof.
  intros Hm p p' r H. destruct (Hm _ _ _ H) as [H1 H2].
  destruct r; [exact H2 | congruence].
Qed.

Lemma safe_pbind_ro {A B} (m : PM A) (k : A -> PM B) :
  pvr_ro m -> (forall a, pvr_safe (k a)) -> pvr_safe (pbind m k).
Proof.
  intros Hm Hk p p' r H. unfold pbind in H.
  destruct (m p) as [[p1 [a|]]|] eqn:E; [| |discriminate].
  - pose proof (Hm _ _ _ E) as ->. exact (Hk a _ _ _ H).
  - injection H as <- <-. exact (Hm _ _ _ E).
Qed.

(** Walk a computation built from the combinators: the header reads are
    read-only, the field assignments at the end keep the error state. *)
Ltac pvr_walk :=
  repeat (intros; cbv beta iota zeta;
    match goal with
    | x : _ * _ |- _ => destruct x
    | |- pvr_safe (pbind (passign _) _) => apply safe_of_commit
    | |- pvr_safe (pbind _ _) => apply safe_pbind_ro
    | |- pvr_commit (pbind _ _) => apply commit_pbind
    | |- pvr_commit (passign _) => apply commit_passign; reflexivity
    | |- pvr_ro (pbind _ _) => apply ro_pbind
    | |- pvr_ro (pret _) => apply ro_pret
    | |- pvr_ro (pfail _) => apply ro_pfail
    | |- pvr_ro (plift _) => apply ro_plift
    | |- pvr_ro (pcheck _ _) => apply ro_pcheck
    | |- pvr_ro (pcheck_err _) => apply ro_pcheck_err
    | |- pvr_ro (pexpect _ _) => apply ro_pexpect
    | |- pvr_ro (if ?c then _ else _) => destruct c
    end).

Lemma importPvr_safe (data : option (list Z)) : pvr_safe (importPvr data).
Proof. unfold importPvr. pvr_walk. Qed.

(** Claim C4: when [importPvr] on an error-free [Pvr] ends with the error
    state set (whatever the cause, e.g. a PVRZ size field below [0x34] or
    above [2^25]), the [Pvr] is the one before the call with only its
    error changed: header fields, metadata, image and encoding
    parameters are untouched. *)
Theorem importPvr_failure_keeps_state (data : option (list Z)) (p p' : Pvr) (r : option unit) :
  perr p = None -> importPvr data p = Some (p', r) -> perr p' <> None ->
  exists e, perr p' = Some e /\ p' = set_perr p e.
Proof.
  intros Hp Hi Hp'. pose proof (importPvr_safe data p p' r Hi) as H.
  destruct r as [[]|].
  - congruence.
  - destruct H as [e ->]. exists e. split; reflexivity.
Qed.

(** *** Encoding parameters *)

(** Claim C5 (as the code has it): on an error-free [Pvr],
    [SetPixelType], [SetChannelType] and [SetColorSpace] reject a value
    outside their enumeration with [ErrIllegalArguments], changing nothing
    else; [SetQuality] never fails but clamps its argument to
    [QUALITY_LOW .. QUALITY_HIGH]; the boolean setters have no invalid value
    and store their argument. *)
Theorem encoding_setters (p : Pvr) (v : Z) :
  perr p = None ->
  (pixelTypeSupported v = false -> SetPixelType p v = set_perr p ErrPvrIllegalArguments) /\
  ((v <? CHAN_UBN) || (v >? CHAN_SB) = true ->
     SetChannelType p v = set_perr p ErrPvrIllegalArguments) /\
  (negb (v =? SPACE_LRGB) && negb (v =? SPACE_SRGB) = true ->
     SetColorSpace p v = set_perr p ErrPvrIllegalArguments) /\
  SetQuality p v = set_quality p (Z.max QUALITY_LOW (Z.min QUALITY_HIGH v)) /\
  (forall x, SetWeightByAlpha p x = set_weightByAlpha p x) /\
  (forall x, SetPerceptiveMetric p x = set_useMetric p x).
Proof.
  intros Hp. assert (He : has_err p = false) by (unfold has_err; rewrite Hp; reflexivity).
  unfold SetPixelType, SetChannelType, SetColorSpace, SetQuality,
    SetWeightByAlpha, SetPerceptiveMetric.
  rewrite He. repeat split.
  - intros H. rewrite H. reflexivity.
  - intros H. rewrite H. reflexivity.
  - intros H. rewrite H. reflexivity.
  - unfold QUALITY_LOW, QUALITY_HIGH. cbv zeta. f_equal. destruct (Z.ltb_spec v 0); zcase; lia.
Qed.

(** *** Offset arrays *)

Lemma firstn_1_skipn (l : list Z) (n : nat) :
  (n < length l)%nat -> firstn 1 (skipn n l) = [nth n l 0].
Proof using.
  revert n. induction l as [|x l IH]; intros n Hn; simpl in *; [lia|].
  destruct n; [reflexivity|]. apply IH. lia.
Qed.

Lemma read_cnt_field_ok (b : Buffer) (pos w x : Z) :
  err b = None -> (w = 1 \/ w = 2 \/ w = 4) -> read_field (buf b) pos w = Some x ->
  read_cnt_field b pos w = (b, x).
Proof using.
  intros Hb Hw Hr. pose proof (is_err_false b Hb) as He.
  unfold read_field, out_of_range in Hr.
  destruct ((pos <? 0) || (zlen (buf b) <? pos + w)) eqn:Ho; [discriminate|].
  injection Hr as <-. apply orb_false_iff in Ho. rewrite !Z.ltb_ge in Ho.
  unfold read_cnt_field, GetInt8, GetInt16, GetInt32, GetUint8, GetUint16, GetUint32, out_of_range.
  rewrite He.
  destruct Hw as [-> | [-> | ->]]; simpl; zcase; try reflexivity.
  unfold slice, zlen in *. replace (pos + 1 - pos) with 1 by lia.
  change (Z.to_nat 1) with 1%nat. rewrite firstn_1_skipn by lia. simpl. rewrite Z.add_0_r. reflexivity.
Qed.

Lemma read_ofs_field_ok (b : Buffer) (pos w x : Z) :
  err b = None -> (w = 2 \/ w = 4) -> read_field (buf b) pos w = Some x ->
  read_ofs_field b pos w = (b, x).
Proof using.
  intros Hb Hw Hr.
  assert (Hc : read_cnt_field b pos w = (b, x))
    by (apply read_cnt_field_ok; [exact Hb | destruct Hw; auto | exact Hr]).
  rewrite <- Hc. unfold read_ofs_field, read_cnt_field.
  destruct Hw as [-> | ->]; reflexivity.
Qed.

(** Claim C9: for an error-free buffer and well-formed arguments of
    [GetOffsetArray] whose offset field holds [O > 0], whose count field
    holds 5 and whose (configured) index field holds 2, with a structure
    size of 16, the result is [[O+32; O+48; O+64]]. *)
Theorem GetOffsetArray_count5_index2 (b : Buffer) (v0 v1 v2 v3 v4 v5 O : Z) :
  err b = None -> 0 < v0 -> 0 < v2 -> 0 < v4 ->
  (v1 = 2 \/ v1 = 4) -> (v3 = 1 \/ v3 = 2 \/ v3 = 4) -> (v5 = 1 \/ v5 = 2 \/ v5 = 4) ->
  0 < O ->
  read_field (buf b) v0 v1 = Some O -> read_field (buf b) v2 v3 = Some 5 ->
  read_field (buf b) v4 v5 = Some 2 ->
  GetOffsetArray b [v0; v1; v2; v3; v4; v5; 16] = (b, [O + 32; O + 48; O + 64]).
Proof using.
  intros Hb H0 H2 H4 Hv1 Hv3 Hv5 HO R0 R2 R4.
  pose proof (is_err_false b Hb) as He.
  unfold GetOffsetArray. rewrite He.
  rewrite (read_ofs_field_ok b v0 v1 O Hb Hv1 R0).
  rewrite (read_cnt_field_ok b v2 v3 5 Hb Hv3 R2).
  rewrite (read_cnt_field_ok b v4 v5 2 Hb Hv5 R4).
  assert (Hc : (v0 <=? 0) || (v2 <=? 0) = false) by (zcase; reflexivity).
  assert (Hc1 : negb (v1 =? 2) && negb (v1 =? 4) = false)
    by (destruct Hv1 as [-> | ->]; reflexivity).
  assert (Hc3 : (v3 <? 1) || (v3 >? 4) || (v3 =? 3) = false)
    by (destruct Hv3 as [-> | [-> | ->]]; reflexivity).
  assert (Hc5 : (v5 <? 0) || (v5 >? 4) || (v3 =? 3) = false)
    by (destruct Hv3 as [-> | [-> | ->]]; destruct Hv5 as [-> | [-> | ->]]; reflexivity).
  rewrite Hc, Hc1, Hc3, Hc5. simpl.
  assert (Hv4 : (v4 >? 0) = true) by (zcase; reflexivity). rewrite Hv4.
  assert (HO' : (O >? 0) = true) by (zcase; reflexivity). rewrite HO'. simpl.
  repeat f_equal; lia.
Qed.

(** *** Compression level *)

Lemma clamp_level (l : Z) :
  (if l <? -2 then -2 else if l >? 9 then 9 else l) =
  (if Z.max (-2) (Z.min 9 l) <? -2 then -2
   else if Z.max (-2) (Z.min 9 l) >? 9 then 9 else Z.max (-2) (Z.min 9 l)).
Proof. zcase; lia. Qed.

Lemma CompressInto_clamp (b : Buffer) (o s l : Z) (t : list Z) :
  CompressInto b o s l t = CompressInto b o s (Z.max (-2) (Z.min 9 l)) t.
Proof. unfold CompressInto. rewrite clamp_level. reflexivity. Qed.

(** Claim C10: [CompressInto] and [CompressReplace] behave at any level
    as at the level clamped to [-2 .. 9]; on an error-free buffer and an
    in-range region, [CompressInto] sets no error unless the zlib writer
    itself fails at the clamped level. *)
Theorem compress_level_clamped :
  (forall (b : Buffer) (o s l : Z) (t : list Z),
     CompressInto b o s l t = CompressInto b o s (Z.max (-2) (Z.min 9 l)) t) /\
  (forall (b : Buffer) (o s l : Z),
     CompressReplace b o s l = CompressReplace b o s (Z.max (-2) (Z.min 9 l))) /\
  (forall (b : Buffer) (o s l : Z) (t : list Z),
     err b = None -> 0 <= o -> 0 <= s -> o + s <= BufferLength b ->
     (forall x, exists y, zlib_deflate (Z.max (-2) (Z.min 9 l)) x = inl y) ->
     err (fst (CompressInto b o s l t)) = None).
Proof.
  split; [|split].
  - exact CompressInto_clamp.
  - intros b o s l. unfold CompressReplace. cbv zeta.
    rewrite (CompressInto_clamp b o _ l []). reflexivity.
  - intros b o s l t Hb Ho Hs Hl Hz. rewrite CompressInto_clamp.
    pose proof (is_err_false b Hb) as He. unfold CompressInto, out_of_range, BufferLength in *.
    rewrite He. zcase. destruct (Hz (slice (buf b) o (o + s))) as [y Hy].
    replace (if Z.max (-2) (Z.min 9 l) <? -2 then -2
             else if Z.max (-2) (Z.min 9 l) >? 9 then 9 else Z.max (-2) (Z.min 9 l))
      with (Z.max (-2) (Z.min 9 l)) by (zcase; lia).
    zcase. rewrite Hy. simpl. exact Hb.
Qed.

(** *** Divergences from the documentation *)

(** Claim C6: [PutStringEx] writes nothing when the encoded string equals
    the bytes at the start of the field, so the rest of the field keeps its
    old bytes instead of being zero-filled: writing ["ab"] into the 4-byte
    field [[97; 98; 1; 2]] leaves [[97; 98; 1; 2]]. *)
Theorem PutStringEx_keeps_stale_tail :
  PutStringEx (mkBuffer [97; 98; 1; 2] false None) 0 4 [97; 98] None =
  Some (mkBuffer [97; 98; 1; 2] false None).
Proof. reflexivity. Qed.

(** Claim C7: [Create()] (that is [Wrap(nil)]) is not empty: it holds 256
    zero bytes. *)
Theorem Create_not_empty :
  BufferLength Create = 256 /\ Bytes Create = repeat 0 256.
Proof. split; reflexivity. Qed.

(** Claim C8: [GetOffsetArray] checks [sevenValues[3] == 3] where the
    index width [sevenValues[5]] is meant, so an index width of 3 is
    accepted: the index field is read as 0 and all five entries are
    returned, with no error. *)
Theorem GetOffsetArray_index_width_3 :
  GetOffsetArray (mkBuffer [0; 0; 0; 0; 100; 0; 0; 0; 5; 0; 0; 0; 2; 0; 0; 0] false None)
    [4; 4; 8; 4; 12; 3; 16] =
  (mkBuffer [0; 0; 0; 0; 100; 0; 0; 0; 5; 0; 0; 0; 2; 0; 0; 0] false None,
   [100; 116; 132; 148; 164]).
Proof. reflexivity. Qed.


(** *** Typed reads and writes *)

Lemma length_write_at (l bs : list Z) (o : Z) :
  (Z.to_nat o + length bs <= length l)%nat -> length (write_at l o bs) = length l.
Proof using. intros H. unfold write_at. rewrite !length_app, length_firstn, length_skipn. lia. Qed.

Lemma slice_write_at (l bs : list Z) (o : Z) :
  0 <= o -> (Z.to_nat o + length bs <= length l)%nat ->
  slice (write_at l o bs) o (o + zlen bs) = bs.
Proof using.
  intros Ho H. unfold slice, write_at, zlen.
  replace (Z.to_nat (o + Z.of_nat (length bs) - o)) with (length bs) by lia.
  rewrite skipn_app, skipn_all2 by (rewrite length_firstn; lia).
  rewrite length_firstn. replace (Z.to_nat o - Nat.min (Z.to_nat o) (length l))%nat with 0%nat by lia.
  simpl. rewrite firstn_app, firstn_all, Nat.sub_diag. simpl. apply app_nil_r.
Qed.

Lemma nth_write_at_out (l bs : list Z) (o : Z) (i : nat) :
  (Z.to_nat o + length bs <= length l)%nat ->
  (i < Z.to_nat o \/ Z.to_nat o + length bs <= i)%nat ->
  nth i (write_at l o bs) 0 = nth i l 0.
Proof using.
  intros H Hi. unfold write_at. destruct Hi as [Hi | Hi].
  - rewrite app_nth1 by (rewrite length_firstn; lia).
    rewrite nth_firstn. destruct (Nat.ltb_spec i (Z.to_nat o)); [reflexivity | lia].
  - rewrite app_nth2 by (rewrite length_firstn; lia). rewrite length_firstn.
    rewrite app_nth2 by lia. rewrite nth_skipn. f_equal. lia.
Qed.

Lemma nth_write_at_in (l : list Z) (o v : Z) :
  0 <= o < zlen l -> nth (Z.to_nat o) (write_at l o [v]) 0 = v.
Proof using.
  intros Ho. unfold write_at, zlen in *.
  rewrite app_nth2 by (rewrite length_firstn; lia). rewrite length_firstn.
  replace (Z.to_nat o - Nat.min (Z.to_nat o) (length l))%nat with 0%nat by lia. reflexivity.
Qed.

Lemma length_le_bytes (n : nat) (v : Z) : length (le_bytes n v) = n.
Proof using. revert v. induction n; intros v; simpl; auto. Qed.

Lemma le_uint_le_bytes (n : nat) (v : Z) :
  le_uint (le_bytes n v) = v mod 2 ^ (8 * Z.of_nat n).
Proof using.
  revert v. induction n as [|n IH]; intros v.
  - simpl. rewrite Z.mod_1_r. reflexivity.
  - cbn [le_bytes le_uint]. rewrite IH.
    replace (8 * Z.of_nat (S n)) with (8 + 8 * Z.of_nat n) by lia.
    rewrite Z.pow_add_r by lia. change (2 ^ 8) with 256.
    assert (HM : 0 < 2 ^ (8 * Z.of_nat n)) by (apply Z.pow_pos_nonneg; lia).
    rewrite !Z.mod_eq, <- Z.div_div by lia. ring.
Qed.

Lemma le_uint_nonneg (l : list Z) :
  Forall (fun x => 0 <= x < 256) l -> 0 <= le_uint l.
Proof using. induction 1 as [|x l Hx Hl IH]; cbn [le_uint]; lia. Qed.

(** A list of bytes is the little-endian encoding of its value. *)
Lemma le_bytes_le_uint (l : list Z) :
  Forall (fun x => 0 <= x < 256) l -> le_bytes (length l) (le_uint l) = l.
Proof using.
  induction 1 as [|x l Hx Hl IH]; [reflexivity|]. cbn [length le_bytes le_uint].
  pose proof (le_uint_nonneg l Hl).
  rewrite Z.mul_comm, Z.mod_add, Z.mod_small, Z.div_add, Z.div_small, Z.add_0_l, IH by lia.
  reflexivity.
Qed.

Lemma put_get_field (l : list Z) (o v : Z) (n : nat) :
  0 <= o -> (Z.to_nat o + n <= length l)%nat -> 0 <= v < 2 ^ (8 * Z.of_nat n) ->
  le_uint (slice (write_at l o (le_bytes n v)) o (o + Z.of_nat n)) = v /\
  length (write_at l o (le_bytes n v)) = length l.
Proof using.
  intros Ho Hl Hv. split.
  - rewrite <- (length_le_bytes n v) at 2. fold (zlen (le_bytes n v)).
    rewrite slice_write_at by (rewrite ?length_le_bytes; lia).
    rewrite le_uint_le_bytes. apply Z.mod_small. exact Hv.
  - apply length_write_at. rewrite length_le_bytes. exact Hl.
Qed.

Lemma to_signed_unsigned (w v : Z) :
  0 < w -> - 2 ^ (w - 1) <= v < 2 ^ (w - 1) -> to_signed w (to_unsigned w v) = v.
Proof using.
  intros Hw Hv. unfold to_signed, to_unsigned.
  assert (H2 : 2 ^ w = 2 * 2 ^ (w - 1)).
  { rewrite <- Z.pow_succ_r by lia. f_equal. lia. }
  destruct (Z.leb_spec 0 v).
  - rewrite Z.mod_small by lia. destruct (Z.ltb_spec v (2 ^ (w - 1))); lia.
  - assert (Hm : v mod 2 ^ w = v + 2 ^ w)
      by (symmetry; apply (Z.mod_unique v (2 ^ w) (-1)); lia).
    rewrite Hm.
    destruct (Z.ltb_spec (v + 2 ^ w) (2 ^ (w - 1))); lia.
Qed.

Lemma to_unsigned_range (w v : Z) : 0 <= w -> 0 <= to_unsigned w v < 2 ^ w.
Proof using. intros Hw. unfold to_unsigned. apply Z.mod_pos_bound. apply Z.pow_pos_nonneg; lia. Qed.

Lemma out_of_range_false (o s len : Z) :
  0 <= o -> o + s <= len -> out_of_range o s len = false.
Proof using. intros H1 H2. unfold out_of_range. zcase. reflexivity. Qed.

Lemma PutUint8_GetUint8_spec (b : Buffer) (o v : Z) :
  err b = None -> 0 <= o < BufferLength b -> 0 <= v < 256 ->
  snd (PutUint8 b o v) = snd (GetUint8 b o) /\
  GetUint8 (fst (PutUint8 b o v)) o = (fst (PutUint8 b o v), v) /\
  BufferLength (fst (PutUint8 b o v)) = BufferLength b /\ err (fst (PutUint8 b o v)) = None.
Proof using.
  destruct b as [l d e]; simpl; intros -> Ho Hv. unfold BufferLength, zlen in *; simpl in *.
  unfold PutUint8, GetUint8, is_err, zlen; simpl. rewrite Z.geb_leb.
  destruct (Z.ltb_spec o 0); [lia|]. destruct (Z.leb_spec (Z.of_nat (length l)) o); [lia|]. simpl.
  destruct (Z.eqb_spec (nth (Z.to_nat o) l 0) v) as [Heq|Hne]; simpl.
  - rewrite Z.geb_leb. destruct (Z.leb_spec (Z.of_nat (length l)) o); [lia|]. simpl.
    rewrite Heq. repeat split.
  - assert (HL : length (write_at l o [v]) = length l) by (apply length_write_at; simpl; lia).
    rewrite Z.geb_leb, HL. destruct (Z.leb_spec (Z.of_nat (length l)) o); [lia|]. simpl.
    rewrite nth_write_at_in by (unfold zlen; lia). repeat split.
Qed.

(** [PutUint8] then [GetUint8] at the same in-range offset reads the value
    back; [PutUint8] returns the value stored before, keeps the length and
    sets no error. *)
Theorem PutUint8_GetUint8 (b : Buffer) (o v : Z) :
  err b = None -> 0 <= o < BufferLength b -> 0 <= v < 256 ->
  snd (PutUint8 b o v) = snd (GetUint8 b o) /\
  GetUint8 (fst (PutUint8 b o v)) o = (fst (PutUint8 b o v), v) /\
  BufferLength (fst (PutUint8 b o v)) = BufferLength b /\ err (fst (PutUint8 b o v)) = None.
Proof using. exact (PutUint8_GetUint8_spec b o v). Qed.

Lemma PutUint16_GetUint16_spec (b : Buffer) (o v : Z) :
  err b = None -> 0 <= o -> o + 2 <= BufferLength b -> 0 <= v < 2 ^ 16 ->
  snd (PutUint16 b o v) = snd (GetUint16 b o) /\
  GetUint16 (fst (PutUint16 b o v)) o = (fst (PutUint16 b o v), v) /\
  BufferLength (fst (PutUint16 b o v)) = BufferLength b /\ err (fst (PutUint16 b o v)) = None.
Proof using.
  destruct b as [l d e]; simpl; intros -> Ho Hl Hv. unfold BufferLength, zlen in *; simpl in *.
  unfold PutUint16, GetUint16, is_err, zlen; cbn -[le_bytes le_uint slice write_at].
  rewrite out_of_range_false by lia. cbn -[le_bytes le_uint slice write_at].
  destruct (Z.eqb_spec (le_uint (slice l o (o + 2))) v) as [Heq|Hne]; cbn -[le_bytes le_uint slice write_at].
  - rewrite out_of_range_false by lia. cbn -[le_bytes le_uint slice write_at]. rewrite Heq. repeat split.
  - destruct (put_get_field l o v 2) as [HV HL]; [lia | lia | exact Hv |].
    change (o + Z.of_nat 2) with (o + 2) in HV.
    rewrite HL, out_of_range_false by lia. cbn -[le_bytes le_uint slice write_at]. rewrite HV. repeat split.
Qed.

(** [PutUint16] then [GetUint16] at the same in-range offset reads the value
    back; [PutUint16] returns the value stored before, keeps the length and
    sets no error. *)
Theorem PutUint16_GetUint16 (b : Buffer) (o v : Z) :
  err b = None -> 0 <= o -> o + 2 <= BufferLength b -> 0 <= v < 2 ^ 16 ->
  snd (PutUint16 b o v) = snd (GetUint16 b o) /\
  GetUint16 (fst (PutUint16 b o v)) o = (fst (PutUint16 b o v), v) /\
  BufferLength (fst (PutUint16 b o v)) = BufferLength b /\ err (fst (PutUint16 b o v)) = None.
Proof using. exact (PutUint16_GetUint16_spec b o v). Qed.

Lemma PutUint32_GetUint32_spec (b : Buffer) (o v : Z) :
  err b = None -> 0 <= o -> o + 4 <= BufferLength b -> 0 <= v < 2 ^ 32 ->
  snd (PutUint32 b o v) = snd (GetUint32 b o) /\
  GetUint32 (fst (PutUint32 b o v)) o = (fst (PutUint32 b o v), v) /\
  BufferLength (fst (PutUint32 b o v)) = BufferLength b /\ err (fst (PutUint32 b o v)) = None.
Proof using.
  destruct b as [l d e]; simpl; intros -> Ho Hl Hv. unfold BufferLength, zlen in *; simpl in *.
  unfold PutUint32, GetUint32, is_err, zlen; cbn -[le_bytes le_uint slice write_at].
  rewrite out_of_range_false by lia. cbn -[le_bytes le_uint slice write_at].
  destruct (Z.eqb_spec (le_uint (slice l o (o + 4))) v) as [Heq|Hne]; cbn -[le_bytes le_uint slice write_at].
  - rewrite out_of_range_false by lia. cbn -[le_bytes le_uint slice write_at]. rewrite Heq. repeat split.
  - destruct (put_get_field l o v 4) as [HV HL]; [lia | lia | exact Hv |].
    change (o + Z.of_nat 4) with (o + 4) in HV.
    rewrite HL, out_of_range_false by lia. cbn -[le_bytes le_uint slice write_at]. rewrite HV. repeat split.
Qed.

(** [PutUint32] then [GetUint32] at the same in-range offset reads the value
    back; [PutUint32] returns the value stored before, keeps the length and
    sets no error. *)
Theorem PutUint32_GetUint32 (b : Buffer) (o v : Z) :
  err b = None -> 0 <= o -> o + 4 <= BufferLength b -> 0 <= v < 2 ^ 32 ->
  snd (PutUint32 b o v) = snd (GetUint32 b o) /\
  GetUint32 (fst (PutUint32 b o v)) o = (fst (PutUint32 b o v), v) /\
  BufferLength (fst (PutUint32 b o v)) = BufferLength b /\ err (fst (PutUint32 b o v)) = None.
Proof using. exact (PutUint32_GetUint32_spec b o v). Qed.


(** The signed writes [PutInt8], [PutInt16] and [PutInt32] store a value of
    their width so that the signed read at the same in-range offset
    returns it, and they return the signed value stored before. *)
Theorem PutInt_GetInt (b : Buffer) (o v : Z) :
  err b = None -> 0 <= o ->
  (o + 1 <= BufferLength b -> -128 <= v < 128 ->
     snd (GetInt8 (fst (PutInt8 b o v)) o) = v /\ snd (PutInt8 b o v) = snd (GetInt8 b o)) /\
  (o + 2 <= BufferLength b -> -2 ^ 15 <= v < 2 ^ 15 ->
     snd (GetInt16 (fst (PutInt16 b o v)) o) = v /\ snd (PutInt16 b o v) = snd (GetInt16 b o)) /\
  (o + 4 <= BufferLength b -> -2 ^ 31 <= v < 2 ^ 31 ->
     snd (GetInt32 (fst (PutInt32 b o v)) o) = v /\ snd (PutInt32 b o v) = snd (GetInt32 b o)).
Proof using.
  intros Hb Ho. split; [|split]; intros Hl Hv.
  - destruct (PutUint8_GetUint8_spec b o (to_unsigned 8 v)) as [H1 [H2 _]];
      [exact Hb | lia | apply (to_unsigned_range 8 v); lia |].
    unfold PutInt8, GetInt8. destruct (PutUint8 b o (to_unsigned 8 v)) as [b' x].
    cbn [fst snd] in *. rewrite H2. cbn [fst snd]. split; [apply to_signed_unsigned; simpl; lia|].
    destruct (GetUint8 b o). simpl in *. congruence.
  - destruct (PutUint16_GetUint16_spec b o (to_unsigned 16 v)) as [H1 [H2 _]];
      [exact Hb | lia | lia | apply (to_unsigned_range 16 v); lia |].
    unfold PutInt16, GetInt16. destruct (PutUint16 b o (to_unsigned 16 v)) as [b' x].
    cbn [fst snd] in *. rewrite H2. cbn [fst snd]. split; [apply to_signed_unsigned; simpl; lia|].
    destruct (GetUint16 b o). simpl in *. congruence.
  - destruct (PutUint32_GetUint32_spec b o (to_unsigned 32 v)) as [H1 [H2 _]];
      [exact Hb | lia | lia | apply (to_unsigned_range 32 v); lia |].
    unfold PutInt32, GetInt32. destruct (PutUint32 b o (to_unsigned 32 v)) as [b' x].
    cbn [fst snd] in *. rewrite H2. cbn [fst snd]. split; [apply to_signed_unsigned; simpl; lia|].
    destruct (GetUint32 b o). simpl in *. congruence.
Qed.


(** *** Whole-region writes *)

Lemma eq_loop_spec (src arr : list Z) :
  (length src <= length arr)%nat ->
  exists c, eq_loop src arr = Some c /\ (c = true <-> firstn (length src) arr = src).
Proof using.
  revert arr. induction src as [|x xs IH]; intros arr Hl.
  - exists true. simpl. split; [reflexivity | split; reflexivity].
  - destruct arr as [|y ys]; simpl in Hl; [lia|]. simpl.
    destruct (Z.eqb_spec x y) as [->|Hne].
    + destruct (IH ys) as [c [Hc Hiff]]; [lia|]. exists c. split; [exact Hc|].
      rewrite Hiff. split; [intros ->; reflexivity | intros H; injection H as H; exact H].
    + exists false. split; [reflexivity|]. split; [discriminate | intros H; injection H; congruence].
Qed.

Lemma eq_loop_overrun (arr r : list Z) (x : Z) : eq_loop (arr ++ x :: r) arr = None.
Proof using. induction arr as [|y ys IH]; simpl; [reflexivity|]. rewrite Z.eqb_refl. exact IH. Qed.

Lemma slice_as_firstn (l : list Z) (o s : Z) :
  0 <= o -> 0 <= s -> slice l o (o + s) = firstn (Z.to_nat s) (skipn (Z.to_nat o) l).
Proof using. intros. unfold slice. f_equal. lia. Qed.

(** [PutBuffer] of an in-range region never panics; [GetBuffer] of the
    same region then returns the bytes written.  The length, the error state
    and the bytes outside the region are kept. *)
Theorem PutBuffer_GetBuffer (b : Buffer) (o : Z) (src : list Z) :
  err b = None -> 0 <= o -> o + zlen src <= BufferLength b ->
  exists b', PutBuffer b o src = Some b' /\
    GetBuffer b' o (zlen src) = Some (b', src) /\
    BufferLength b' = BufferLength b /\ err b' = None /\
    (forall i, (i < Z.to_nat o \/ Z.to_nat o + length src <= i)%nat ->
       nth i (buf b') 0 = nth i (buf b) 0).
Proof using.
  destruct b as [l d e]; simpl; intros -> Ho Hl.
  unfold BufferLength, zlen in *; simpl in *.
  unfold PutBuffer, GetBuffer, is_err; cbn [err buf dirty].
  unfold zlen. rewrite out_of_range_false by lia.
  destruct (eq_loop_spec src (skipn (Z.to_nat o) l)) as [c [Hc Hiff]];
    [rewrite length_skipn; lia|].
  rewrite Hc. destruct c.
  - eexists; split; [reflexivity|]. cbn [err buf].
    rewrite out_of_range_false by lia.
    destruct (Z.ltb_spec (Z.of_nat (length src)) 0); [lia|].
    rewrite slice_as_firstn, Nat2Z.id by lia. rewrite (proj1 Hiff eq_refl).
    repeat split; reflexivity.
  - assert (HL : length (write_at l o src) = length l) by (apply length_write_at; lia).
    eexists; split; [reflexivity|]. cbn [err buf]. rewrite HL.
    rewrite out_of_range_false by lia.
    destruct (Z.ltb_spec (Z.of_nat (length src)) 0); [lia|].
    fold (zlen src). rewrite slice_write_at by lia.
    split; [reflexivity|]. split; [unfold BufferLength, zlen; cbn [buf]; rewrite ?HL; reflexivity|].
    split; [reflexivity|]. intros i Hi. apply nth_write_at_out; lia.
Qed.

Lemma write_at_padded (l s : list Z) (o size : Z) :
  0 <= o -> zlen s <= size -> o + size <= zlen l ->
  write_at l o (firstn (Z.to_nat size) s ++ repeat 0 (Z.to_nat size - length s)) =
  firstn (Z.to_nat o) l ++ s ++ repeat 0 (Z.to_nat size - length s) ++ skipn (Z.to_nat (o + size)) l.
Proof using.
  intros Ho Hs Hl. unfold write_at, zlen in *.
  rewrite (firstn_all2 (n := Z.to_nat size) s) by lia. rewrite length_app, repeat_length, <- app_assoc.
  do 3 f_equal. f_equal. lia.
Qed.

Lemma PutStringEx_nil_cmap_spec (b : Buffer) (o size : Z) (s : list Z) :
  err b = None -> 0 <= o -> 0 < size -> o + size <= BufferLength b -> zlen s <= size ->
  exists b', PutStringEx b o size s None = Some b' /\
    (firstn (length s) (skipn (Z.to_nat o) (buf b)) = s -> b' = b) /\
    (firstn (length s) (skipn (Z.to_nat o) (buf b)) <> s ->
       b' = mkBuffer (firstn (Z.to_nat o) (buf b) ++ s ++ repeat 0 (Z.to_nat size - length s)
                      ++ skipn (Z.to_nat (o + size)) (buf b)) true None).
Proof using.
  destruct b as [l d e]; simpl; intros -> Ho Hs Hl Hz.
  unfold BufferLength, zlen in *; simpl in *.
  unfold PutStringEx, is_err; cbn [err buf dirty].
  destruct (Z.leb_spec size 0); [lia|]. unfold zlen. rewrite out_of_range_false by lia.
  destruct (eq_loop_spec s (skipn (Z.to_nat o) l)) as [c [Hc Hiff]];
    [rewrite length_skipn; lia|].
  rewrite Hc. destruct c.
  - eexists; split; [reflexivity|]. split; [reflexivity|]. intros Hx. exfalso. exact (Hx (proj1 Hiff eq_refl)).
  - eexists; split; [reflexivity|]. split.
    + intros Hx. apply Hiff in Hx. discriminate.
    + intros _. rewrite write_at_padded by (unfold zlen; lia). reflexivity.
Qed.

(** [PutStringEx] with a nil charmap and a value that fits its in-range
    field never panics and sets no error.  If the field already starts with
    the value it changes nothing; otherwise the field becomes the value
    followed by zero bytes, the rest of the buffer is kept and the buffer is
    marked modified. *)
Theorem PutStringEx_nil_cmap (b : Buffer) (o size : Z) (s : list Z) :
  err b = None -> 0 <= o -> 0 < size -> o + size <= BufferLength b -> zlen s <= size ->
  exists b', PutStringEx b o size s None = Some b' /\
    (firstn (length s) (skipn (Z.to_nat o) (buf b)) = s -> b' = b) /\
    (firstn (length s) (skipn (Z.to_nat o) (buf b)) <> s ->
       b' = mkBuffer (firstn (Z.to_nat o) (buf b) ++ s ++ repeat 0 (Z.to_nat size - length s)
                      ++ skipn (Z.to_nat (o + size)) (buf b)) true None).
Proof using. exact (PutStringEx_nil_cmap_spec b o size s). Qed.

(** [PutStringEx] with a nil charmap of a value exactly as long as its
    in-range field, followed by [GetStringEx] of that field without the
    null cut, returns the value. *)
Theorem PutStringEx_GetStringEx (b : Buffer) (o : Z) (s : list Z) :
  err b = None -> 0 <= o -> s <> [] -> o + zlen s <= BufferLength b ->
  exists b', PutStringEx b o (zlen s) s None = Some b' /\
    GetStringEx b' o (zlen s) false None = (b', s).
Proof using.
  intros Hb Ho Hs Hl.
  assert (Hs0 : 0 < zlen s) by (destruct s; [congruence | unfold zlen; simpl; lia]).
  destruct (PutStringEx_nil_cmap_spec b o (zlen s) s Hb Ho Hs0 Hl (Z.le_refl _)) as [b' [Hp [Heq Hne]]].
  exists b'. split; [exact Hp|].
  destruct b as [l d e]; simpl in *; subst e. unfold BufferLength, zlen in *; simpl in *.
  replace (Z.to_nat (Z.of_nat (length s)) - length s)%nat with 0%nat in Hne by lia.
  destruct (list_eq_dec Z.eq_dec (firstn (length s) (skipn (Z.to_nat o) l)) s) as [E|E].
  - rewrite (Heq E). unfold GetStringEx, is_err; cbn [err buf].
    unfold zlen. destruct (Z.leb_spec (Z.of_nat (length s)) 0); [lia|].
    rewrite out_of_range_false by lia. rewrite slice_as_firstn, Nat2Z.id by lia. rewrite E. reflexivity.
  - rewrite (Hne E). simpl. unfold GetStringEx, is_err; cbn [err buf].
    unfold zlen. destruct (Z.leb_spec (Z.of_nat (length s)) 0); [lia|].
    set (L := firstn (Z.to_nat o) l ++ s ++ skipn (Z.to_nat (o + Z.of_nat (length s))) l).
    assert (HL : length L = length l).
    { unfold L. rewrite !length_app, length_firstn, length_skipn. lia. }
    rewrite HL, out_of_range_false by lia. rewrite slice_as_firstn by lia.
    unfold L. rewrite skipn_app, (skipn_all2 (firstn (Z.to_nat o) l)) by (rewrite length_firstn; lia).
    rewrite length_firstn. replace (Z.to_nat o - Nat.min (Z.to_nat o) (length l))%nat with 0%nat by lia.
    simpl. rewrite Nat2Z.id, firstn_app, firstn_all, Nat.sub_diag. simpl. rewrite app_nil_r. reflexivity.
Qed.

(** [PutStringEx] with a nil charmap panics when the value is longer than
    the rest of the buffer from the offset on and agrees with it up to the
    end: its comparison loop reads past the end of the buffer. *)
Theorem PutStringEx_overrun_panics (b : Buffer) (o size x : Z) (r : list Z) :
  err b = None -> 0 <= o -> 0 < size -> o + size <= BufferLength b ->
  PutStringEx b o size (skipn (Z.to_nat o) (buf b) ++ x :: r) None = None.
Proof using.
  destruct b as [l d e]; simpl; intros -> Ho Hs Hl.
  unfold BufferLength, zlen in *; simpl in *.
  unfold PutStringEx, is_err; cbn [err buf dirty].
  destruct (Z.leb_spec size 0); [lia|]. unfold zlen. rewrite out_of_range_false by lia.
  rewrite eq_loop_overrun. reflexivity.
Qed.

(** *** Insertion and deletion, in general *)

Lemma firstn_add_split (l : list Z) (a c : nat) :
  firstn (a + c) l = firstn a l ++ firstn c (skipn a l).
Proof using.
  revert l. induction a as [|a IH]; intros l; [reflexivity|].
  destruct l; simpl; [rewrite firstn_nil; reflexivity | f_equal; apply IH].
Qed.

Lemma InsertBytes_eq (b : Buffer) (o n : Z) :
  err b = None -> 0 <= o <= BufferLength b -> 0 < n ->
  InsertBytes b o n =
  mkBuffer (firstn (Z.to_nat o) (buf b)
            ++ firstn (Z.to_nat n) (skipn (Z.to_nat o) (buf b) ++ repeat 0 (Z.to_nat n))
            ++ skipn (Z.to_nat o) (buf b)) true None.
Proof using.
  destruct b as [l d e]; simpl; intros -> Ho Hn. unfold BufferLength, zlen in Ho; simpl in Ho.
  rewrite <- (Z2Nat.id o) at 1 by lia. rewrite <- (Z2Nat.id n) at 1 by lia.
  rewrite InsertBytes_buf by lia.
  rewrite firstn_add_split, firstn_app, skipn_app, <- app_assoc.
  replace (Z.to_nat o - length l)%nat with 0%nat by lia. simpl. rewrite app_nil_r. reflexivity.
Qed.

Lemma DeleteBytes_eq (b : Buffer) (o n : Z) :
  err b = None -> 0 <= o -> 0 < n -> o + n <= BufferLength b ->
  DeleteBytes b o n =
  Some (mkBuffer (if (o =? 0) || (o + n <? BufferLength b - n)
                  then firstn (Z.to_nat o) (buf b) ++ skipn (Z.to_nat (o + n)) (buf b)
                  else firstn (Z.to_nat (BufferLength b - n)) (buf b)) true None).
Proof using.
  destruct b as [l d e]; simpl; intros -> Ho Hn Hl.
  unfold BufferLength, zlen in *; simpl in *.
  unfold DeleteBytes, is_err, zlen; cbn [err buf].
  destruct (Z.ltb_spec o 0); [lia|]. rewrite Z.gtb_ltb.
  destruct (Z.ltb_spec (Z.of_nat (length l)) o); [lia|]. rewrite Z.gtb_ltb.
  destruct (Z.ltb_spec 0 n); [|lia]. simpl.
  rewrite Z.gtb_ltb. destruct (Z.ltb_spec (Z.of_nat (length l)) n); [lia|].
  destruct (Z.eqb_spec o 0) as [->|Ho0]; simpl.
  - reflexivity.
  - assert (Hself : go_copy l 0 o (slice l 0 o) = l)
      by (rewrite <- (Z2Nat.id o) by lia; apply go_copy_self; lia).
    rewrite !Hself.
    destruct (Z.ltb_spec (o + n) (Z.of_nat (length l) - n)); [|reflexivity].
    f_equal. f_equal.
    assert (Hs : slice l (o + n) (Z.of_nat (length l)) = skipn (Z.to_nat (o + n)) l)
      by (unfold slice; apply firstn_all2; rewrite length_skipn; lia).
    rewrite Hs. unfold go_copy, zlen. rewrite length_skipn.
    replace (Z.min (Z.of_nat (length l) - n - o) (Z.of_nat (length l - Z.to_nat (o + n))))
      with (Z.of_nat (length l) - n - o) by lia.
    rewrite (firstn_all2 (n := Z.to_nat (Z.of_nat (length l) - n - o)) (skipn (Z.to_nat (o + n)) l))
      by (rewrite length_skipn; lia).
    rewrite app_assoc, firstn_app.
    assert (HA : length (firstn (Z.to_nat o) l ++ skipn (Z.to_nat (o + n)) l)
                 = Z.to_nat (Z.of_nat (length l) - n))
      by (rewrite length_app, length_firstn, length_skipn; lia).
    rewrite HA, Nat.sub_diag, firstn_all2 by lia. simpl. apply app_nil_r.
Qed.

(** [InsertBytes(o, n)] with [n > 0] at a valid offset of an error-free
    buffer makes room for [n] bytes at [o]: the bytes before [o] and the old
    bytes from [o] on (now at [o + n]) are kept, and the [n] new bytes are
    copies of the old bytes at [o, o + n) (zero only past the old end), not
    zeros.  The buffer is marked modified. *)
Theorem InsertBytes_result (b : Buffer) (o n : Z) :
  err b = None -> 0 <= o <= BufferLength b -> 0 < n ->
  InsertBytes b o n =
  mkBuffer (firstn (Z.to_nat o) (buf b)
            ++ firstn (Z.to_nat n) (skipn (Z.to_nat o) (buf b) ++ repeat 0 (Z.to_nat n))
            ++ skipn (Z.to_nat o) (buf b)) true None.
Proof using. exact (InsertBytes_eq b o n). Qed.

(** [DeleteBytes(o, n)] with [n > 0] on an error-free buffer and a region
    [o, o + n) inside it never panics.  For [o = 0] or [o + n < len - n] it
    removes exactly that region; otherwise it keeps the first [len - n]
    bytes, which removes the region only when it ends the buffer. *)
Theorem DeleteBytes_result (b : Buffer) (o n : Z) :
  err b = None -> 0 <= o -> 0 < n -> o + n <= BufferLength b ->
  DeleteBytes b o n =
  Some (mkBuffer (if (o =? 0) || (o + n <? BufferLength b - n)
                  then firstn (Z.to_nat o) (buf b) ++ skipn (Z.to_nat (o + n)) (buf b)
                  else firstn (Z.to_nat (BufferLength b - n)) (buf b)) true None).
Proof using. exact (DeleteBytes_eq b o n). Qed.

(** *** Replacing a region by (de)compressed data *)

Lemma go_copy_region (A T out : list Z) (o m : Z) :
  0 <= o -> 0 <= m -> length A = Z.to_nat (o + m) -> zlen out = m ->
  go_copy (A ++ T) o m out = firstn (Z.to_nat o) A ++ out ++ T.
Proof using.
  intros Ho Hm HA Hout. unfold go_copy. rewrite Hout, Z.min_id.
  unfold zlen in Hout. rewrite (firstn_all2 (n := Z.to_nat m) out) by lia.
  rewrite firstn_app, skipn_app.
  replace (Z.to_nat o - length A)%nat with 0%nat by lia.
  rewrite skipn_all2 by lia. replace (Z.to_nat (o + m) - length A)%nat with 0%nat by lia.
  simpl. rewrite app_nil_r. reflexivity.
Qed.

Lemma resize_region_ok (l : list Z) (d : bool) (o s m : Z) (out : list Z) :
  0 <= o -> 0 <= s -> o + s <= zlen l -> zlen out = m ->
  (s <= m \/ o + m = 0 \/ o + 2 * s - m < zlen l \/ o + s = zlen l) ->
  exists b2, resize_region (mkBuffer l d None) o s m = Some b2 /\ err b2 = None /\
    go_copy (buf b2) o m out = firstn (Z.to_nat o) l ++ out ++ skipn (Z.to_nat (o + s)) l.
Proof using.
  intros Ho Hs Hl Hout Hc. assert (Hm : 0 <= m) by (rewrite <- Hout; unfold zlen; lia).
  unfold zlen in *. unfold resize_region. rewrite Z.gtb_ltb.
  destruct (Z.ltb_spec s m).
  - (* grow: InsertBytes(offset+size, n-size) *)
    rewrite InsertBytes_eq by (first [reflexivity | unfold BufferLength, zlen; simpl; lia]). simpl.
    eexists; split; [reflexivity|]. split; [reflexivity|]. cbn [buf].
    rewrite app_assoc, go_copy_region; try lia.
    + rewrite firstn_app, firstn_firstn, length_firstn.
      replace (Nat.min (Z.to_nat o) (Z.to_nat (o + s))) with (Z.to_nat o) by lia.
      replace (Z.to_nat o - Nat.min (Z.to_nat (o + s)) (length l))%nat with 0%nat by lia.
      simpl. rewrite app_nil_r. reflexivity.
    + rewrite length_app, !length_firstn, length_app, length_skipn, repeat_length. lia.
    + unfold zlen. exact Hout.
  - destruct (Z.ltb_spec m s).
    + (* shrink: DeleteBytes(offset+n, size-n) *)
      rewrite DeleteBytes_eq by (first [reflexivity | unfold BufferLength, zlen; simpl; lia]).
      eexists; split; [reflexivity|]. split; [reflexivity|]. cbn [buf].
      unfold BufferLength, zlen; cbn [buf].
      assert (HB : (if (o + m =? 0) || (o + m + (s - m) <? Z.of_nat (length l) - (s - m))
                    then firstn (Z.to_nat (o + m)) l ++ skipn (Z.to_nat (o + m + (s - m))) l
                    else firstn (Z.to_nat (Z.of_nat (length l) - (s - m))) l)
                   = firstn (Z.to_nat (o + m)) l ++ skipn (Z.to_nat (o + s)) l).
      { destruct (Z.eqb_spec (o + m) 0); simpl.
        - f_equal. f_equal. lia.
        - destruct (Z.ltb_spec (o + m + (s - m)) (Z.of_nat (length l) - (s - m))).
          + f_equal. f_equal. lia.
          + assert (HE : o + s = Z.of_nat (length l)) by lia.
            rewrite HE, Nat2Z.id, skipn_all, app_nil_r. f_equal. lia. }
      rewrite HB, go_copy_region; try lia.
      * rewrite firstn_firstn. f_equal. f_equal. lia.
      * rewrite length_firstn. lia.
      * unfold zlen. exact Hout.
    + (* same size *)
      assert (m = s) as -> by lia.
      eexists; split; [reflexivity|]. split; [reflexivity|]. cbn [buf].
      rewrite <- (firstn_skipn (Z.to_nat (o + s)) l) at 1.
      rewrite go_copy_region; try lia.
      * rewrite firstn_firstn. f_equal. f_equal. lia.
      * rewrite length_firstn. lia.
      * unfold zlen. exact Hout.
Qed.

(** [DecompressReplace(o, s)] on an error-free buffer, with [s > 0], an
    in-range region and a zlib stream there that inflates without error to
    [out], returns [len(out)] and replaces the region by [out], keeping the
    bytes around it, unless the region shrinks and [DeleteBytes] hits the
    case where it loses bytes (see [DeleteBytes_result]). *)
Theorem DecompressReplace_result (b : Buffer) (o s : Z) (out : list Z) :
  err b = None -> 0 <= o -> 0 < s -> o + s <= BufferLength b ->
  zlib_inflate (slice (buf b) o (o + s)) = inl (out, None) ->
  (s <= zlen out \/ o + zlen out = 0 \/ o + 2 * s - zlen out < BufferLength b \/
   o + s = BufferLength b) ->
  DecompressReplace b o s =
  Some (mkBuffer (firstn (Z.to_nat o) (buf b) ++ out ++ skipn (Z.to_nat (o + s)) (buf b)) true None,
        zlen out).
Proof using.
  destruct b as [l d e]; cbn [buf err]; intros -> Ho Hs Hl Hz Hc.
  unfold BufferLength in *; cbn [buf] in *.
  destruct (resize_region_ok l d o s (zlen out) out) as [b2 [Hr [He Hg]]];
    [lia | lia | exact Hl | reflexivity | exact Hc |].
  unfold DecompressReplace, DecompressInto, is_err; cbn [err buf].
  destruct (Z.ltb_spec s 0); [lia|].
  destruct (Z.leb_spec s 0); [lia|]. rewrite out_of_range_false by lia. simpl.
  rewrite Hz. rewrite Hr. rewrite He. rewrite Hg. reflexivity.
Qed.

Lemma CompressReplace_eq (b : Buffer) (o s level : Z) (z : list Z) :
  err b = None -> 0 <= o -> 0 <= s -> o + s <= BufferLength b ->
  zlib_deflate (Z.max (-2) (Z.min 9 level)) (slice (buf b) o (o + s)) = inl z ->
  (o + zlen (firstn (Z.to_nat s) z) = 0 \/
   o + 2 * s - zlen (firstn (Z.to_nat s) z) < BufferLength b \/
   o + s = BufferLength b \/ zlen (firstn (Z.to_nat s) z) = s) ->
  CompressReplace b o s level =
  Some (mkBuffer (firstn (Z.to_nat o) (buf b) ++ firstn (Z.to_nat s) z
                  ++ skipn (Z.to_nat (o + s)) (buf b)) true None,
        zlen (firstn (Z.to_nat s) z)) /\
  zlen (firstn (Z.to_nat s) z) <= s.
Proof using.
  destruct b as [l d e]; cbn [buf err]; intros -> Ho Hs Hl Hz Hc.
  unfold BufferLength in *; cbn [buf] in *.
  assert (Hle : zlen (firstn (Z.to_nat s) z) <= s) by (unfold zlen; rewrite length_firstn; lia).
  split; [|exact Hle].
  destruct (resize_region_ok l d o s (zlen (firstn (Z.to_nat s) z)) (firstn (Z.to_nat s) z))
    as [b2 [Hr [He Hg]]]; [lia | lia | exact Hl | reflexivity | lia |].
  unfold CompressReplace, is_err; cbn [err buf].
  destruct (Z.ltb_spec s 0); [lia|].
  rewrite CompressInto_clamp. unfold CompressInto, is_err; cbn [err buf].
  destruct (Z.ltb_spec s 0); [lia|]. rewrite out_of_range_false by lia. simpl.
  replace (if Z.max (-2) (Z.min 9 level) <? -2 then -2
           else if Z.max (-2) (Z.min 9 level) >? 9 then 9 else Z.max (-2) (Z.min 9 level))
    with (Z.max (-2) (Z.min 9 level)) by (zcase; lia).
  replace ((Z.max (-2) (Z.min 9 level) <? -2) || (Z.max (-2) (Z.min 9 level) >? 9)) with false
    by (zcase; lia).
  rewrite Hz. simpl.
  replace (if s <? zlen z then firstn (Z.to_nat s) z else z) with (firstn (Z.to_nat s) z).
  - rewrite Hr, He, Hg. reflexivity.
  - unfold zlen. destruct (Z.ltb_spec s (Z.of_nat (length z))); [reflexivity|].
    apply firstn_all2. lia.
Qed.

(** [CompressReplace(o, s, level)] on an error-free buffer and an in-range
    region, when the zlib writer succeeds with [z] at the clamped level,
    replaces the region by the first [s] bytes of [z] (the data never grows)
    and returns their number, unless the region shrinks and [DeleteBytes]
    hits the case where it loses bytes (see [DeleteBytes_result]). *)
Theorem CompressReplace_result (b : Buffer) (o s level : Z) (z : list Z) :
  err b = None -> 0 <= o -> 0 <= s -> o + s <= BufferLength b ->
  zlib_deflate (Z.max (-2) (Z.min 9 level)) (slice (buf b) o (o + s)) = inl z ->
  (o + zlen (firstn (Z.to_nat s) z) = 0 \/
   o + 2 * s - zlen (firstn (Z.to_nat s) z) < BufferLength b \/
   o + s = BufferLength b \/ zlen (firstn (Z.to_nat s) z) = s) ->
  CompressReplace b o s level =
  Some (mkBuffer (firstn (Z.to_nat o) (buf b) ++ firstn (Z.to_nat s) z
                  ++ skipn (Z.to_nat (o + s)) (buf b)) true None,
        zlen (firstn (Z.to_nat s) z)) /\
  zlen (firstn (Z.to_nat s) z) <= s.
Proof using. exact (CompressReplace_eq b o s level z). Qed.

(** *** Offset arrays, in general *)



(** *** The serialized header of [Pvr] *)

Lemma prepareHeader_fields (p : Pvr) :
  prepareHeader p =
  (let b := put_fields (InsertBytes Create 0 52) 0 (header_fields (info p)) in
   if zlen (meta (info p)) >? 0 then
     match PutBuffer (InsertBytes b 52 (zlen (meta (info p)))) 52 (meta (info p)) with
     | Some b => Some (Bytes b)
     | None => None
     end
   else Some (Bytes b)).
Proof using.
  unfold prepareHeader, header_fields. cbn [put_fields].
  repeat match goal with
         | |- context [?a + 4] =>
             let r := eval vm_compute in (a + 4) in change (a + 4) with r
         end.
  reflexivity.
Qed.

Lemma le_bytes_bytes (n : nat) (v : Z) : Forall (fun x => 0 <= x < 256) (le_bytes n v).
Proof using.
  revert v. induction n as [|n IH]; intros v; constructor; [apply Z.mod_pos_bound; lia | apply IH].
Qed.

Lemma write_at_mid (A M R bs : list Z) :
  length bs = length M -> write_at (A ++ M ++ R) (zlen A) bs = A ++ bs ++ R.
Proof using.
  intros HL. unfold write_at, zlen. rewrite Nat2Z.id.
  rewrite firstn_app, Nat.sub_diag, firstn_all. simpl. rewrite app_nil_r. f_equal. f_equal.
  rewrite skipn_app, skipn_all2 by lia. simpl.
  replace (length A + length bs - length A)%nat with (length M) by lia.
  rewrite skipn_app, skipn_all, Nat.sub_diag. reflexivity.
Qed.

Lemma slice_mid (A M R : list Z) (n : Z) :
  zlen M = n -> slice (A ++ M ++ R) (zlen A) (zlen A + n) = M.
Proof using.
  intros HM. unfold slice, zlen in *. rewrite Nat2Z.id.
  rewrite skipn_app, skipn_all, Nat.sub_diag. simpl.
  replace (Z.to_nat (Z.of_nat (length A) + n - Z.of_nat (length A))) with (length M) by lia.
  rewrite firstn_app, Nat.sub_diag, firstn_all. simpl. apply app_nil_r.
Qed.

(** [PutInt32] on a 4-byte field [M] between [A] and [R] of an error-free buffer. *)
Lemma PutInt32_mid (A M R : list Z) (d : bool) (v : Z) :
  Forall (fun x => 0 <= x < 256) M -> length M = 4%nat ->
  exists d', fst (PutInt32 (mkBuffer (A ++ M ++ R) d None) (zlen A) v)
             = mkBuffer (A ++ le_bytes 4 (to_unsigned 32 v) ++ R) d' None.
Proof using.
  intros HB HM. unfold PutInt32, PutUint32, is_err; cbn [err buf].
  rewrite out_of_range_false by (unfold zlen; rewrite ?length_app; lia).
  rewrite slice_mid by (unfold zlen; rewrite HM; reflexivity).
  destruct (Z.eqb_spec (le_uint M) (to_unsigned 32 v)) as [He|He]; cbn [fst].
  - exists d. rewrite <- He, <- HM, (le_bytes_le_uint M HB). reflexivity.
  - exists true. rewrite write_at_mid by (rewrite length_le_bytes; lia). reflexivity.
Qed.

Lemma put_fields_spec (vals : list Z) :
  forall (A R : list Z) (d : bool) (o : Z), o = zlen A ->
  exists d', put_fields (mkBuffer (A ++ repeat 0 (4 * length vals) ++ R) d None) o vals
             = mkBuffer (A ++ flat_map (fun v => le_bytes 4 (to_unsigned 32 v)) vals ++ R) d' None.
Proof using.
  induction vals as [|v vs IH]; intros A R d o ->.
  - exists d. reflexivity.
  - cbn [put_fields length flat_map].
    replace (4 * S (length vs))%nat with (4 + 4 * length vs)%nat by lia.
    rewrite repeat_app, <- app_assoc.
    destruct (PutInt32_mid A (repeat 0 4) (repeat 0 (4 * length vs) ++ R) d v) as [d1 H1];
      [repeat constructor; lia | reflexivity |].
    rewrite H1, app_assoc.
    destruct (IH (A ++ le_bytes 4 (to_unsigned 32 v)) R d1 (zlen A + 4)) as [d2 H2].
    { unfold zlen. rewrite length_app, length_le_bytes. lia. }
    exists d2. rewrite H2, <- !app_assoc. reflexivity.
Qed.

Lemma PutBuffer_mid (A M R src : list Z) (d : bool) :
  length src = length M ->
  exists b', PutBuffer (mkBuffer (A ++ M ++ R) d None) (zlen A) src = Some b' /\
             buf b' = A ++ src ++ R /\ err b' = None.
Proof using.
  intros HL. unfold PutBuffer, is_err; cbn [err buf].
  rewrite out_of_range_false by (unfold zlen; rewrite ?length_app; lia).
  assert (HS : skipn (Z.to_nat (zlen A)) (A ++ M ++ R) = M ++ R)
    by (unfold zlen; rewrite Nat2Z.id, skipn_app, skipn_all, Nat.sub_diag; reflexivity).
  rewrite HS.
  destruct (eq_loop_spec src (M ++ R)) as [c [Hc Hiff]]; [rewrite length_app; lia|].
  rewrite Hc. destruct c.
  - eexists; split; [reflexivity|]. split; [|reflexivity]. cbn [buf].
    assert (HM : M = src).
    { pose proof (proj1 Hiff eq_refl) as HF.
      rewrite firstn_app, HL, Nat.sub_diag, firstn_all, app_nil_r in HF. exact HF. }
    rewrite HM. reflexivity.
  - eexists; split; [reflexivity|]. split; [|reflexivity]. cbn [buf].
    apply write_at_mid. exact HL.
Qed.

(** The bytes [prepareHeader] returns: the 52-byte header, the metadata and
    the 256 zero bytes of the buffer made by [Create()]. *)
Lemma prepareHeader_eq (p : Pvr) :
  prepareHeader p =
  Some (flat_map (fun v => le_bytes 4 (to_unsigned 32 v)) (header_fields (info p))
        ++ meta (info p) ++ repeat 0 256).
Proof using.
  rewrite prepareHeader_fields. cbv zeta.
  set (H := flat_map (fun v => le_bytes 4 (to_unsigned 32 v)) (header_fields (info p))).
  assert (HI : InsertBytes Create 0 52 =
               mkBuffer ([] ++ repeat 0 (4 * length (header_fields (info p))) ++ repeat 0 256) true None)
    by reflexivity.
  rewrite HI.
  destruct (put_fields_spec (header_fields (info p)) [] (repeat 0 256) true 0 eq_refl) as [d Hp].
  rewrite Hp. cbn [app]. fold H.
  assert (HL : length H = 52%nat) by reflexivity.
  set (m := meta (info p)).
  destruct (Z.gtb_spec (zlen m) 0) as [Hm|Hm].
  - replace (InsertBytes (mkBuffer (H ++ repeat 0 256) d None) 52 (zlen m))
      with (InsertBytes (mkBuffer (H ++ repeat 0 256) d None) (Z.of_nat (length H)) (Z.of_nat (length m)))
      by (rewrite HL; reflexivity).
    rewrite InsertBytes_buf by (unfold zlen in Hm; rewrite ?length_app; lia).
    replace 52 with (zlen H) by (unfold zlen; rewrite HL; reflexivity).
    assert (HB : firstn (length H + length m) ((H ++ repeat 0 256) ++ repeat 0 (length m))
                 ++ skipn (length H) (H ++ repeat 0 256) = H ++ repeat 0 (length m) ++ repeat 0 256).
    { rewrite <- app_assoc, firstn_app, firstn_all2 by lia.
      replace (length H + length m - length H)%nat with (length m) by lia.
      rewrite <- repeat_app, (Nat.add_comm 256 (length m)), repeat_app, firstn_app, repeat_length,
        Nat.sub_diag, (firstn_all2 (n := length m) (repeat 0 (length m))) by (rewrite repeat_length; lia).
      cbn [firstn]. rewrite app_nil_r.
      rewrite skipn_app, skipn_all, Nat.sub_diag. cbn [skipn app]. rewrite <- app_assoc. reflexivity. }
    rewrite HB.
    destruct (PutBuffer_mid H (repeat 0 (length m)) (repeat 0 256) m true) as [b' [Hb [Hbuf He]]];
      [rewrite repeat_length; reflexivity|].
    rewrite Hb. unfold Bytes, is_err. rewrite He, Hbuf. reflexivity.
  - destruct m as [|x r] eqn:Em; [|unfold zlen in Hm; cbn [length] in Hm; lia].
    reflexivity.
Qed.

Lemma exportPvr_eq (p : Pvr) :
  exportPvr p =
  match encodeTexture (img p) (pixelType (info p)) (quality p) (weightByAlpha p) (useMetric p) with
  | None => Some (set_perr p (ErrFormat "Unable to encode texture data"), None)
  | Some out =>
      Some (p, Some (flat_map (fun v => le_bytes 4 (to_unsigned 32 v)) (header_fields (info p))
                     ++ meta (info p) ++ repeat 0 256 ++ out))
  end.
Proof using.
  unfold exportPvr. rewrite prepareHeader_eq.
  destruct (encodeTexture _ _ _ _ _); [|reflexivity]. rewrite <- !app_assoc. reflexivity.
Qed.

Lemma Forall_firstn_gen {A} (P : A -> Prop) (n : nat) (l : list A) :
  Forall P l -> Forall P (firstn n l).
Proof using.
  revert l. induction n as [|n IH]; intros l Hl; [constructor|].
  destruct Hl as [|x l Hx Hl]; [constructor | cbn [firstn]; constructor; [exact Hx | apply IH; exact Hl]].
Qed.

Lemma to_unsigned_int32 (x : Z) : to_unsigned 32 (int32 x) = to_unsigned 32 x.
Proof using.
  unfold int32, to_signed. pose proof (to_unsigned_range 32 x ltac:(lia)) as Hr.
  set (u := to_unsigned 32 x) in *.
  destruct (Z.ltb_spec u (2 ^ (32 - 1))).
  - unfold to_unsigned. apply Z.mod_small. exact Hr.
  - unfold to_unsigned. symmetry. apply (Z.mod_unique _ _ (-1)); lia.
Qed.


(** [Save(w, true)] of an error-free [Pvr] whose texture encodes to [out],
    when zlib at level 9 turns the [L] serialized bytes into the bytes [z],
    writes the 4-byte little-endian [L] followed by the first [L] bytes of
    [z] only (the rest of the zlib stream is cut off). *)
Theorem SavePvr_compressed_layout (p : Pvr) (out z : list Z) :
  perr p = None ->
  encodeTexture (img p) (pixelType (info p)) (quality p) (weightByAlpha p) (useMetric p) = Some out ->
  zlib_deflate 9 (flat_map (fun v => le_bytes 4 (to_unsigned 32 v)) (header_fields (info p))
                  ++ meta (info p) ++ repeat 0 256 ++ out) = inl z ->
  Forall (fun x => 0 <= x < 256) z ->
  SavePvr p true =
  Some (p, Some (le_bytes 4 (to_unsigned 32 (zlen (flat_map (fun v => le_bytes 4 (to_unsigned 32 v))
                                                   (header_fields (info p))
                                                 ++ meta (info p) ++ repeat 0 256 ++ out)))
                 ++ firstn (length (flat_map (fun v => le_bytes 4 (to_unsigned 32 v)) (header_fields (info p))
                                    ++ meta (info p) ++ repeat 0 256 ++ out)) z)).
Proof using.
  intros Hp He Hz Hb.
  set (D := flat_map (fun v => le_bytes 4 (to_unsigned 32 v)) (header_fields (info p))
            ++ meta (info p) ++ repeat 0 256 ++ out) in *.
  assert (HE := exportPvr_eq p). rewrite He in HE. fold D in HE.
  unfold SavePvr, has_err. rewrite Hp, HE. cbn [perr]. rewrite Hp.
  change (Wrap (Some D)) with (mkBuffer D false None).
  unfold BufferLength; cbn [buf].
  assert (HS : slice D 0 (0 + zlen D) = D)
    by (unfold slice, zlen; rewrite Z.sub_0_r, Z.add_0_l, Nat2Z.id; apply firstn_all).
  destruct (CompressReplace_eq (mkBuffer D false None) 0 (zlen D) 9 z) as [Hc _];
    cbn [buf err]; try (unfold BufferLength, zlen; cbn [buf]; lia); [reflexivity | |].
  { change (Z.max (-2) (Z.min 9 9)) with 9. rewrite HS. exact Hz. }
  cbn [buf] in Hc. rewrite Z.add_0_l in Hc. change (Z.to_nat 0) with 0%nat in Hc.
  cbn [firstn app] in Hc.
  rewrite (skipn_all2 (n := Z.to_nat (zlen D)) D), app_nil_r in Hc by (unfold zlen; lia).
  replace (Z.to_nat (zlen D)) with (length D) in Hc by (unfold zlen; lia).
  rewrite Hc. cbv beta iota.
  set (Zc := firstn (length D) z).
  change 0 with (Z.of_nat 0). change 4 with (Z.of_nat 4).
  rewrite InsertBytes_buf by lia. cbn [Nat.add skipn].
  change (Z.of_nat 0) with (zlen (@nil Z)).
  destruct (PutInt32_mid [] (firstn 4 (Zc ++ repeat 0 4)) Zc true (int32 (zlen D))) as [d' Hd].
  { apply Forall_firstn_gen. apply Forall_app. split.
    - apply Forall_firstn_gen. exact Hb.
    - repeat constructor; lia. }
  { rewrite length_firstn, length_app, repeat_length. lia. }
  cbn [app] in Hd. rewrite Hd. rewrite to_unsigned_int32. reflexivity.
Qed.

(** *** A successful import *)

Lemma pbind_some_inv {A B} (m : PM A) (k : A -> PM B) (p p' : Pvr) (b : B) :
  pbind m k p = Some (p', Some b) ->
  exists p1 a, m p = Some (p1, Some a) /\ k a p1 = Some (p', Some b).
Proof using.
  unfold pbind. destruct (m p) as [[p1 [a|]]|]; intros H; [| discriminate | discriminate].
  exists p1, a. split; [reflexivity | exact H].
Qed.

Lemma pret_some_inv {A} (a : A) (p p' : Pvr) (a' : A) :
  pret a p = Some (p', Some a') -> p' = p /\ a' = a.
Proof using. unfold pret. intros H. injection H as <- <-. split; reflexivity. Qed.

Lemma pcheck_some_inv (c : bool) (e : error) (p p' : Pvr) (u : unit) :
  pcheck c e p = Some (p', Some u) -> c = false /\ p' = p.
Proof using.
  unfold pcheck, pfail, pret. destruct c; intros H; [discriminate|].
  injection H as <- _. split; reflexivity.
Qed.

Lemma pcheck_err_some_inv (o : option error) (p p' : Pvr) (u : unit) :
  pcheck_err o p = Some (p', Some u) -> o = None /\ p' = p.
Proof using.
  unfold pcheck_err, pfail, pret. destruct o; intros H; [discriminate|].
  injection H as <- _. split; reflexivity.
Qed.

Lemma pexpect_some_inv {A} (o : option A) (e : error) (p p' : Pvr) (a : A) :
  pexpect o e p = Some (p', Some a) -> o = Some a /\ p' = p.
Proof using.
  unfold pexpect, pfail, pret. destruct o; intros H; [|discriminate].
  injection H as <- <-. split; reflexivity.
Qed.

Lemma plift_some_inv {A} (o : option A) (p p' : Pvr) (a : A) :
  plift o p = Some (p', Some a) -> o = Some a /\ p' = p.
Proof using.
  unfold plift, pret. destruct o; intros H; [|discriminate].
  injection H as <- <-. split; reflexivity.
Qed.

Lemma passign_some_inv (f : Pvr -> Pvr) (p p' : Pvr) (u : unit) :
  passign f p = Some (p', Some u) -> p' = f p.
Proof using. unfold passign. intros H. injection H as <- _. reflexivity. Qed.

Lemma some_eq_inv {A} (a b : A) : Some a = Some b -> a = b.
Proof using. intros H. injection H as H. exact H. Qed.

(** Follow a computation that fell through to its end, collecting what each
    step returned and the conditions that did not trigger an early return. *)
Ltac pm_forward :=
  repeat match goal with
  | H : pbind _ _ _ = Some (_, Some _) |- _ =>
      apply pbind_some_inv in H; destruct H as [? [? [? H]]]; cbv beta in H
  | H : pret _ _ = Some (_, Some _) |- _ =>
      apply pret_some_inv in H; destruct H as [? ?]; subst
  | H : pcheck _ _ _ = Some (_, Some _) |- _ =>
      apply pcheck_some_inv in H; destruct H as [? ?]; subst
  | H : pcheck_err _ _ = Some (_, Some _) |- _ =>
      apply pcheck_err_some_inv in H; destruct H as [? ?]; subst
  | H : pexpect _ _ _ = Some (_, Some _) |- _ =>
      apply pexpect_some_inv in H; destruct H as [? ?]; subst
  | H : plift _ _ = Some (_, Some _) |- _ =>
      apply plift_some_inv in H; destruct H as [? ?]; subst
  | H : passign _ _ = Some (_, Some _) |- _ =>
      apply passign_some_inv in H; subst
  | H : (if ?c then _ else _) _ = Some (_, Some _) |- _ => destruct c eqn:?
  | H : (match ?x with pair _ _ => _ end) _ = Some (_, Some _) |- _ => destruct x eqn:?
  | H : Some _ = Some _ |- _ => apply some_eq_inv in H; subst
  end.


(** Turn the conditions of the early returns that were not taken into
    arithmetic facts. *)
Ltac bool_facts :=
  repeat match goal with
  | H : (_ || _) = false |- _ => apply orb_false_iff in H; destruct H
  | H : negb _ = false |- _ => apply negb_false_iff in H
  | H : (_ <? _) = false |- _ => apply Z.ltb_ge in H
  | H : (_ >? _) = false |- _ => rewrite Z.gtb_ltb in H; apply Z.ltb_ge in H
  | H : (_ =? _) = true |- _ => apply Z.eqb_eq in H
  end.

(** When [importPvr] runs to its end, the [Pvr] it leaves holds a header
    that passed every check: a supported pixel type, color space 0 or 1,
    channel type 0 to 3, height and width between 0 and 4096 and multiples
    of 4, and depth, surfaces, faces and mip maps all 1.  The error state
    and the encoding parameters are those before the call. *)
Theorem importPvr_success (data : option (list Z)) (p p' : Pvr) :
  importPvr data p = Some (p', Some tt) ->
  perr p' = perr p /\ quality p' = quality p /\ weightByAlpha p' = weightByAlpha p /\
  useMetric p' = useMetric p /\
  pixelTypeSupported (pixelType (info p')) = true /\
  0 <= colorSpace (info p') <= 1 /\ CHAN_UBN <= channelType (info p') <= CHAN_SB /\
  0 <= height (info p') <= 4096 /\ Z.land (height (info p')) 3 = 0 /\
  0 <= width (info p') <= 4096 /\ Z.land (width (info p')) 3 = 0 /\
  depth (info p') = 1 /\ numSurfaces (info p') = 1 /\ numFaces (info p') = 1 /\
  numMipMaps (info p') = 1.
Proof using.
  intros H. unfold importPvr in H. pm_forward;
  cbn [set_img upd_info set_info info perr quality weightByAlpha useMetric
       info_meta info_numMipMaps info_numFaces info_numSurfaces info_depth info_width
       info_height info_channelType info_colorSpace info_pixelType info_flags
       flags pixelType colorSpace channelType height width depth numSurfaces numFaces numMipMaps meta];
  bool_facts; unfold CHAN_UBN, CHAN_SB in *;
  repeat split; first [reflexivity | assumption | lia].
Qed.

(** *** Saving and loading again *)

Lemma slice_app_shift (x l : list Z) (a b : Z) :
  0 <= a -> slice (x ++ l) (zlen x + a) (zlen x + b) = slice l a b.
Proof using.
  intros Ha. unfold slice, zlen.
  replace (Z.of_nat (length x) + b - (Z.of_nat (length x) + a)) with (b - a) by lia.
  replace (Z.to_nat (Z.of_nat (length x) + a)) with (Z.to_nat a + length x)%nat by lia.
  rewrite <- skipn_skipn, skipn_app, skipn_all, Nat.sub_diag. reflexivity.
Qed.

Lemma length_flat_map_le4 (vals : list Z) :
  length (flat_map (fun v => le_bytes 4 (to_unsigned 32 v)) vals) = (4 * length vals)%nat.
Proof using.
  induction vals as [|v vs IH]; [reflexivity|].
  cbn [flat_map length]. rewrite length_app, length_le_bytes, IH. lia.
Qed.

Lemma slice_flat_map4 (vals R : list Z) (k : nat) :
  (k < length vals)%nat ->
  slice (flat_map (fun v => le_bytes 4 (to_unsigned 32 v)) vals ++ R)
        (4 * Z.of_nat k) (4 * Z.of_nat k + 4)
  = le_bytes 4 (to_unsigned 32 (nth k vals 0)).
Proof using.
  revert k. induction vals as [|v vs IH]; intros k Hk; [cbn in Hk; lia|].
  cbn [flat_map]. rewrite <- app_assoc. destruct k as [|k].
  - change (4 * Z.of_nat 0) with (zlen (@nil Z)).
    apply (slice_mid [] (le_bytes 4 (to_unsigned 32 v)) _ 4). reflexivity.
  - cbn [nth]. cbn [length] in Hk.
    replace (4 * Z.of_nat (S k)) with (zlen (le_bytes 4 (to_unsigned 32 v)) + 4 * Z.of_nat k)
      by (unfold zlen; rewrite length_le_bytes; lia).
    replace (zlen (le_bytes 4 (to_unsigned 32 v)) + 4 * Z.of_nat k + 4)
      with (zlen (le_bytes 4 (to_unsigned 32 v)) + (4 * Z.of_nat k + 4)) by lia.
    rewrite slice_app_shift by lia. apply IH. lia.
Qed.

Lemma int32_small (x : Z) : 0 <= x < 2 ^ 31 -> int32 x = x.
Proof using.
  intros Hx. unfold int32, to_signed, to_unsigned. rewrite Z.mod_small by lia.
  destruct (Z.ltb_spec x (2 ^ (32 - 1))); lia.
Qed.

Lemma int32_int32 (x : Z) : int32 (int32 x) = int32 x.
Proof using. unfold int32 at 1. rewrite to_unsigned_int32. reflexivity. Qed.

(** [GetInt32] of the [k]-th field written by a run of [PutInt32]. *)
Lemma GetInt32_fields (vals R : list Z) (d : bool) (o : Z) (k : nat) :
  o = 4 * Z.of_nat k -> (k < length vals)%nat ->
  GetInt32 (mkBuffer (flat_map (fun v => le_bytes 4 (to_unsigned 32 v)) vals ++ R) d None) o
  = (mkBuffer (flat_map (fun v => le_bytes 4 (to_unsigned 32 v)) vals ++ R) d None,
     int32 (nth k vals 0)).
Proof using.
  intros -> Hk. unfold GetInt32, GetUint32, is_err; cbn [err buf].
  rewrite out_of_range_false
    by (unfold zlen; rewrite ?length_app, ?length_flat_map_le4; lia).
  rewrite slice_flat_map4 by exact Hk. rewrite le_uint_le_bytes.
  assert (Hm : to_unsigned 32 (nth k vals 0) mod 2 ^ 32 = to_unsigned 32 (nth k vals 0))
    by (unfold to_unsigned; apply Z.mod_mod; lia).
  change (2 ^ (8 * Z.of_nat 4)) with (2 ^ 32). rewrite Hm. reflexivity.
Qed.

Lemma GetBuffer_in (b : Buffer) (o s : Z) :
  err b = None -> 0 <= o -> 0 <= s -> o + s <= BufferLength b ->
  GetBuffer b o s = Some (b, slice (buf b) o (o + s)).
Proof using.
  intros Hb Ho Hs Hl. unfold GetBuffer. rewrite (is_err_false b Hb).
  rewrite out_of_range_false by exact Hl || lia. zcase. reflexivity.
Qed.

Lemma pair_eq_inv {A B} (a c : A) (b d : B) : (a, b) = (c, d) -> a = c /\ b = d.
Proof using. intros H. injection H as H1 H2. split; [exact H1 | exact H2]. Qed.

Lemma Wrap_some (l : list Z) : Wrap (Some l) = mkBuffer l false None.
Proof using. reflexivity. Qed.

Ltac read_header_fields :=
  repeat match goal with
  | Hg : (_, _) = GetInt32 (mkBuffer (flat_map ?f ?vals ++ ?R) ?d None) ?o |- _ =>
      let k := eval vm_compute in (Z.to_nat (o / 4)) in
      let v := eval cbn [nth header_fields] in (nth k vals 0) in
      rewrite (GetInt32_fields vals R d o k) in Hg by (first [reflexivity | cbn; lia]);
      change (nth k vals 0) with v in Hg;
      let Hb := fresh "Hb" in let Hz := fresh "Hz" in
      apply pair_eq_inv in Hg; destruct Hg as [Hb Hz]; subst
  | Hg : GetInt32 (mkBuffer (flat_map ?f ?vals ++ ?R) ?d None) ?o = (_, _) |- _ =>
      let k := eval vm_compute in (Z.to_nat (o / 4)) in
      let v := eval cbn [nth header_fields] in (nth k vals 0) in
      rewrite (GetInt32_fields vals R d o k) in Hg by (first [reflexivity | cbn; lia]);
      change (nth k vals 0) with v in Hg;
      let Hb := fresh "Hb" in let Hz := fresh "Hz" in
      apply pair_eq_inv in Hg; destruct Hg as [Hb Hz]; subst
  end.

(** Saving a [Pvr] and loading the bytes again does not give back its
    texture: when [exportPvr] returns [data] and [importPvr] of [data]
    runs to its end, the loaded image is decoded from the 256 zero bytes
    that [prepareHeader] leaves after the metadata followed by the encoded
    texture, with the width, height and pixel type read back.  The
    metadata (shorter than [2^31] bytes) is read back unchanged. *)
Theorem Save_Load_texture (p q q' : Pvr) (data : list Z) :
  zlen (meta (info p)) < 2 ^ 31 ->
  exportPvr p = Some (p, Some data) ->
  importPvr (Some data) q = Some (q', Some tt) ->
  exists out,
    encodeTexture (img p) (pixelType (info p)) (quality p) (weightByAlpha p) (useMetric p) = Some out /\
    decodeTexture (repeat 0 256 ++ out) (width (info q')) (height (info q')) (pixelType (info q'))
    = Some (img q') /\
    meta (info q') = meta (info p).
Proof using.
  intros Hm He Hi. rewrite exportPvr_eq in He.
  destruct (encodeTexture (img p) (pixelType (info p)) (quality p) (weightByAlpha p) (useMetric p))
    as [out|] eqn:Eo; [|discriminate].
  apply some_eq_inv in He. assert (Hd : Some data = Some (flat_map (fun v => le_bytes 4 (to_unsigned 32 v)) (header_fields (info p))
            ++ meta (info p) ++ repeat 0 256 ++ out)) by exact (f_equal snd (eq_sym He)).
  apply some_eq_inv in Hd. subst data. exists out. split; [reflexivity|].
  unfold importPvr in Hi. pm_forward; rewrite ?Wrap_some in *; read_header_fields;
  try (match goal with H : negb (int32 versionSig =? versionSig) = true |- _ =>
         vm_compute in H; discriminate H end).
  all: set (m := meta (info p)) in *;
    set (Hd := flat_map (fun v => le_bytes 4 (to_unsigned 32 v)) (header_fields (info p))) in *.
  all: assert (HL : length Hd = 52%nat) by (unfold Hd; rewrite length_flat_map_le4; reflexivity).
  all: assert (Hm0 : 0 <= zlen m) by (unfold zlen; lia).
  all: rewrite ?int32_int32 in *; rewrite ?(int32_small (zlen m)) in * by lia.
  all: replace (if zlen m <? 0 then 0 else zlen m) with (zlen m) in *
         by (destruct (Z.ltb_spec (zlen m) 0); lia).
  all: assert (HS : skipn (Z.to_nat (52 + zlen m)) (Bytes (mkBuffer (Hd ++ m ++ repeat 0 256 ++ out) false None))
                    = repeat 0 256 ++ out)
         by (unfold Bytes, is_err; cbn [err buf];
             replace (Z.to_nat (52 + zlen m)) with (length m + length Hd)%nat by (unfold zlen; lia);
             rewrite <- skipn_skipn, skipn_app, skipn_all, Nat.sub_diag; cbn [skipn app];
             rewrite skipn_app, skipn_all, Nat.sub_diag; reflexivity).
  all: cbn [set_img upd_info set_info info img info_meta info_numMipMaps info_numFaces
            info_numSurfaces info_depth info_width info_height info_channelType
            info_colorSpace info_pixelType info_flags width height pixelType meta].
  - match goal with Hx : GetBuffer _ _ _ = Some _ |- _ => rename Hx into H17 end.
    rewrite GetBuffer_in in H17 by (first [reflexivity | unfold BufferLength, zlen in *; cbn [buf];
      rewrite ?length_app; lia]).
    apply some_eq_inv, pair_eq_inv in H17. destruct H17 as [<- <-].
    split.
    + match goal with Hx : decodeTexture _ _ _ _ = Some _ |- _ => rewrite HS in Hx; exact Hx end.
    + cbn [buf]. replace 52 with (zlen Hd) by (unfold zlen; rewrite HL; reflexivity).
      apply slice_mid. reflexivity.
  - split.
    + match goal with Hx : decodeTexture _ _ _ _ = Some _ |- _ => rewrite HS in Hx; exact Hx end.
    + rewrite Z.gtb_ltb in *. destruct (Z.ltb_spec 0 (zlen m)); [discriminate|].
      destruct m as [|x r]; [reflexivity | unfold zlen in *; cbn [length] in *; lia].
Qed.

(** ** Package tables *)

(** *** Go indexing *)

Lemma nth_app_if {A} (l1 l2 : list A) (n : nat) (d : A) :
  nth n (l1 ++ l2) d = if (n <? length l1)%nat then nth n l1 d else nth (n - length l1) l2 d.
Proof using.
  destruct (Nat.ltb_spec n (length l1)); [apply app_nth1 | apply app_nth2]; lia.
Qed.

Lemma nth_cons_if {A} (x : A) (l : list A) (n : nat) (d : A) :
  nth n (x :: l) d = if (n =? 0)%nat then x else nth (n - 1) l d.
Proof using.
  destruct n; cbn; [reflexivity|]. rewrite Nat.sub_0_r. reflexivity.
Qed.

Lemma nth_repeat_if {A} (x : A) (m n : nat) (d : A) :
  nth n (repeat x m) d = if (n <? m)%nat then x else d.
Proof using.
  destruct (Nat.ltb_spec n m); [apply nth_repeat_lt; lia | apply nth_overflow; rewrite repeat_length; lia].
Qed.

Ltac nat_cases := repeat match goal with
  | |- context [(?a <? ?b)%nat] => destruct (Nat.ltb_spec a b)
  | |- context [(?a =? ?b)%nat] => destruct (Nat.eqb_spec a b)
  end.

Ltac list_lengths := repeat (first [ rewrite length_app | rewrite length_firstn | rewrite length_skipn
  | rewrite repeat_length | progress cbn [length] ]).

(** Equality of lists element by element. *)
Ltac list_ext d :=
  apply (nth_ext _ _ d d);
  [ list_lengths; lia
  | let j := fresh "j" in let Hj := fresh "Hj" in
    intros j Hj; list_lengths; cbn [length] in Hj;
    repeat (first [ rewrite nth_app_if | rewrite nth_firstn | rewrite nth_skipn | rewrite nth_cons_if
                  | rewrite nth_repeat_if ]; list_lengths);
    nat_cases; try lia; first [reflexivity | f_equal; lia | idtac] ].

Lemma go_index_in {A} (l : list A) (i : Z) (d : A) :
  0 <= i < zlen l -> go_index l i = Some (nth (Z.to_nat i) l d).
Proof using.
  unfold go_index, zlen. intros H. destruct (Z.ltb_spec i 0); [lia|].
  apply nth_error_nth'. lia.
Qed.

Lemma go_index_out {A} (l : list A) (i : Z) :
  i < 0 \/ zlen l <= i -> go_index l i = None.
Proof using.
  unfold go_index, zlen. intros H. destruct (Z.ltb_spec i 0); [reflexivity|].
  apply nth_error_None. lia.
Qed.

Lemma set_nth_eq {A} (n : nat) (x : A) (l : list A) :
  (n < length l)%nat -> set_nth n x l = firstn n l ++ x :: skipn (S n) l.
Proof using.
  revert n; induction l as [|y r IH]; intros [|n] H; cbn in *; try lia; [reflexivity|].
  rewrite IH by lia. reflexivity.
Qed.

Lemma go_set_in {A} (l : list A) (i : Z) (x : A) :
  0 <= i < zlen l -> go_set l i x = Some (firstn (Z.to_nat i) l ++ x :: skipn (S (Z.to_nat i)) l).
Proof using.
  unfold go_set, zlen. intros H.
  destruct (Z.ltb_spec i 0); [lia|]. destruct (Z.leb_spec (Z.of_nat (length l)) i); [lia|].
  cbn. rewrite set_nth_eq by lia. reflexivity.
Qed.

Lemma go_set_out {A} (l : list A) (i : Z) (x : A) :
  i < 0 \/ zlen l <= i -> go_set l i x = None.
Proof using.
  unfold go_set, zlen. intros H.
  destruct (Z.ltb_spec i 0); [reflexivity|]. destruct (Z.leb_spec (Z.of_nat (length l)) i); [reflexivity|lia].
Qed.

Lemma go_reslice_in {A} (l : list A) (hi : Z) :
  0 <= hi <= zlen l -> go_reslice l hi = Some (firstn (Z.to_nat hi) l).
Proof using.
  unfold go_reslice, zlen. intros H.
  destruct (Z.ltb_spec hi 0); [lia|]. destruct (Z.ltb_spec (Z.of_nat (length l)) hi); [lia|]. reflexivity.
Qed.

(** The loop of [InsertItem] and [InsertRow] moves [l[d..i-1]] one place up. *)
Lemma shift_down_loop_spec {A} (d0 : A) (k d : nat) (l : list A) :
  (d + k < length l)%nat ->
  shift_down_loop k l (Z.of_nat (d + k)) (Z.of_nat d) =
  Some (firstn (S d) l ++ firstn k (skipn d l) ++ skipn (S (d + k)) l).
Proof using.
  revert l; induction k as [|k IH]; intros l H.
  - cbn [shift_down_loop]. f_equal. list_ext d0.
  - cbn [shift_down_loop].
    replace (Z.of_nat (d + S k) >? Z.of_nat d) with true by (symmetry; apply Z.gtb_lt; lia).
    rewrite (go_index_in _ _ d0) by (unfold zlen; lia). cbn [obind].
    rewrite go_set_in by (unfold zlen; lia). cbn [obind].
    replace (Z.of_nat (d + S k) - 1) with (Z.of_nat (d + k)) by lia.
    rewrite IH by (list_lengths; lia).
    f_equal. rewrite ?Nat2Z.id. list_ext d0.
Qed.

(** Reading below index 0 panics. *)
Lemma shift_down_loop_neg {A} (k : nat) (l : list A) (downto : Z) :
  downto < 0 -> (k < length l)%nat ->
  shift_down_loop (Z.to_nat (Z.of_nat k - downto)) l (Z.of_nat k) downto = None.
Proof using.
  revert l; induction k as [|k IH]; intros l Hd H.
  - replace (Z.to_nat (Z.of_nat 0 - downto)) with (S (Z.to_nat (- downto - 1))) by lia.
    cbn [shift_down_loop]. replace (Z.of_nat 0 >? downto) with true by (symmetry; apply Z.gtb_lt; lia).
    rewrite go_index_out by lia. reflexivity.
  - destruct l as [|a l']; [cbn in H; lia|].
    replace (Z.to_nat (Z.of_nat (S k) - downto)) with (S (Z.to_nat (Z.of_nat k - downto))) by lia.
    cbn [shift_down_loop]. replace (Z.of_nat (S k) >? downto) with true by (symmetry; apply Z.gtb_lt; lia).
    rewrite (go_index_in _ _ a) by (unfold zlen; cbn [length] in *; lia). cbn [obind].
    rewrite go_set_in by (unfold zlen; cbn [length] in *; lia). cbn [obind].
    replace (Z.of_nat (S k) - 1) with (Z.of_nat k) by lia.
    apply IH; [lia|]. list_lengths. cbn [length] in *. lia.
Qed.

(** The loop of [DeleteItem] copies [l[col]] over every later entry. *)
Lemma copy_up_loop_spec {A} (post pre : list A) (x : A) :
  copy_up_loop (length post) (pre ++ x :: post) (zlen pre + 1) (zlen pre + 1 + zlen post) =
  Some (pre ++ x :: repeat x (length post)).
Proof using.
  revert pre x; induction post as [|y post IH]; intros pre x; [reflexivity|].
  cbn [length copy_up_loop].
  replace (zlen pre + 1 <? zlen pre + 1 + zlen (y :: post)) with true
    by (symmetry; apply Z.ltb_lt; unfold zlen; cbn [length]; lia).
  rewrite (go_index_in _ _ x) by (unfold zlen; list_lengths; lia). cbn [obind].
  rewrite go_set_in by (unfold zlen; list_lengths; lia). cbn [obind].
  replace (zlen pre + 1 - 1) with (zlen pre) by lia.
  replace (nth (Z.to_nat (zlen pre)) (pre ++ x :: y :: post) x) with x
    by (unfold zlen; rewrite Nat2Z.id, nth_middle; reflexivity).
  replace (firstn (Z.to_nat (zlen pre + 1)) (pre ++ x :: y :: post) ++
           x :: skipn (S (Z.to_nat (zlen pre + 1))) (pre ++ x :: y :: post))
    with ((pre ++ [x]) ++ x :: post) by (unfold zlen; list_ext x).
  replace (zlen pre + 1 + zlen (y :: post)) with (zlen (pre ++ [x]) + 1 + zlen post)
    by (unfold zlen; list_lengths; lia).
  replace (zlen pre + 1 + 1) with (zlen (pre ++ [x]) + 1) by (unfold zlen; list_lengths; lia).
  rewrite IH. f_equal. rewrite <- app_assoc. reflexivity.
Qed.

Lemma last_cons_default {A} (y : A) (l : list A) (a b : A) : last (y :: l) a = last (y :: l) b.
Proof using.
  revert y; induction l as [|z l IH]; intros y; [reflexivity|]. exact (IH z).
Qed.

(** The loop of [DeleteRow] moves every entry after [l[k]] one place down. *)
Lemma copy_down_loop_spec {A} (post pre : list A) (x : A) :
  copy_down_loop (length post) (pre ++ x :: post) (zlen pre + 1) (zlen pre + 1 + zlen post) =
  Some (pre ++ post ++ [last (x :: post) x]).
Proof using.
  revert pre x; induction post as [|y post IH]; intros pre x; [reflexivity|].
  cbn [length copy_down_loop].
  replace (zlen pre + 1 <? zlen pre + 1 + zlen (y :: post)) with true
    by (symmetry; apply Z.ltb_lt; unfold zlen; cbn [length]; lia).
  rewrite (go_index_in _ _ x) by (unfold zlen; list_lengths; lia). cbn [obind].
  rewrite go_set_in by (unfold zlen; list_lengths; lia). cbn [obind].
  replace (zlen pre + 1 - 1) with (zlen pre) by lia.
  replace (nth (Z.to_nat (zlen pre + 1)) (pre ++ x :: y :: post) x) with y
    by (unfold zlen; replace (Z.to_nat (Z.of_nat (length pre) + 1)) with (length pre + 1)%nat by lia;
        rewrite app_nth2_plus; reflexivity).
  replace (firstn (Z.to_nat (zlen pre)) (pre ++ x :: y :: post) ++
           y :: skipn (S (Z.to_nat (zlen pre))) (pre ++ x :: y :: post))
    with ((pre ++ [y]) ++ y :: post) by (unfold zlen; list_ext x).
  replace (zlen pre + 1 + zlen (y :: post)) with (zlen (pre ++ [y]) + 1 + zlen post)
    by (unfold zlen; list_lengths; lia).
  replace (zlen pre + 1 + 1) with (zlen (pre ++ [y]) + 1) by (unfold zlen; list_lengths; lia).
  rewrite IH, <- app_assoc. change (last (x :: y :: post) x) with (last (y :: post) x).
  rewrite (last_cons_default y post x y). reflexivity.
Qed.

(** *** Row lookup *)

Lemma absoluteRow_loop_spec (row minCols : Z) (rows pre : list (list (list Z))) (m : Z) :
  0 <= m <= row ->
  absoluteRow_loop rows (zlen pre) m row minCols =
  match nth_error (filter (fun i => zlen (nth i (pre ++ rows) []) >=? minCols)
                          (seq (length pre) (length rows))) (Z.to_nat (row - m)) with
  | Some i => Z.of_nat i
  | None => -1
  end.
Proof using.
  revert pre m; induction rows as [|v rest IH]; intros pre m Hm.
  - cbn. destruct (Z.to_nat (row - m)); reflexivity.
  - cbn [absoluteRow_loop length seq filter].
    rewrite nth_middle.
    replace (zlen pre + 1) with (zlen (pre ++ [v])) by (unfold zlen; list_lengths; lia).
    assert (Hseq : S (length pre) = length (pre ++ [v])) by (list_lengths; lia).
    destruct (zlen v >=? minCols).
    + destruct (Z.eqb_spec m row) as [<-|Hne].
      * rewrite Z.sub_diag. reflexivity.
      * rewrite IH by lia. rewrite Hseq, <- app_assoc.
        replace (Z.to_nat (row - m)) with (S (Z.to_nat (row - (m + 1)))) by lia.
        reflexivity.
    + rewrite IH by lia. rewrite Hseq, <- app_assoc. reflexivity.
Qed.

Lemma absoluteRow_eq (t : Table) (row minCols : Z) :
  absoluteRow t row minCols =
  if row <? 0 then -1
  else match nth_error (rows_with (table t) (Z.max 0 minCols)) (Z.to_nat row) with
       | Some i => Z.of_nat i
       | None => -1
       end.
Proof using.
  unfold absoluteRow, rows_with.
  replace (if minCols <? 0 then 0 else minCols) with (Z.max 0 minCols)
    by (destruct (Z.ltb_spec minCols 0); lia).
  destruct (Z.ltb_spec row 0); [destruct (Z.geb_spec row 0); [lia|reflexivity]|].
  destruct (Z.geb_spec row 0); [|lia]. cbn [andb].
  destruct (Z.ltb_spec row (zlen (table t))).
  - change 0 with (zlen (@nil (list (list Z)))) at 1.
    rewrite absoluteRow_loop_spec by lia. rewrite Z.sub_0_r. reflexivity.
  - rewrite (proj2 (nth_error_None _ _)); [reflexivity|].
    pose proof (filter_length_le (fun i => zlen (nth i (table t) []) >=? Z.max 0 minCols)
                  (seq 0 (length (table t)))) as HL.
    rewrite length_seq in HL. unfold zlen in *. lia.
Qed.

Lemma absoluteRow_found (t : Table) (row minCols : Z) :
  0 <= absoluteRow t row minCols ->
  absoluteRow t row minCols < zlen (table t) /\
  Z.max 0 minCols <= zlen (nth (Z.to_nat (absoluteRow t row minCols)) (table t) []).
Proof using.
  rewrite absoluteRow_eq. destruct (row <? 0); [lia|].
  destruct (nth_error _ _) as [i|] eqn:E; [|lia]. intros _.
  apply nth_error_In in E. unfold rows_with in E. apply filter_In in E as [Hin Hge].
  apply in_seq in Hin. apply Z.geb_le in Hge. rewrite Nat2Z.id. unfold zlen in *. lia.
Qed.

Lemma absoluteRow_clamp (t : Table) (row minCols : Z) :
  absoluteRow t row (if minCols <? 0 then 0 else minCols) = absoluteRow t row minCols.
Proof using.
  unfold absoluteRow. destruct (Z.ltb_spec minCols 0) as [H|H]; [reflexivity|].
  cbv iota. rewrite (proj2 (Z.ltb_ge _ _) H). reflexivity.
Qed.

Lemma absoluteRow_loop_lengths (rows1 rows2 : list (list (list Z))) (r m row minCols : Z) :
  map (@length _) rows1 = map (@length _) rows2 ->
  absoluteRow_loop rows1 r m row minCols = absoluteRow_loop rows2 r m row minCols.
Proof using.
  revert rows2 r m; induction rows1 as [|v rest IH]; intros [|w rest2] r m H; cbn in H;
    try discriminate; [reflexivity|].
  injection H as Hvw Hrest. cbn [absoluteRow_loop]. unfold zlen at 1 2. rewrite Hvw.
  rewrite (IH rest2 (r + 1) (m + 1) Hrest), (IH rest2 (r + 1) m Hrest). reflexivity.
Qed.

Lemma absoluteRow_lengths (t1 t2 : Table) (row minCols : Z) :
  map (@length _) (table t1) = map (@length _) (table t2) ->
  absoluteRow t1 row minCols = absoluteRow t2 row minCols.
Proof using.
  intros H. unfold absoluteRow.
  assert (Hl : zlen (table t1) = zlen (table t2))
    by (unfold zlen; rewrite <- (length_map (@length _) (table t1)), H, length_map; reflexivity).
  rewrite Hl. rewrite (absoluteRow_loop_lengths _ _ _ _ _ _ H). reflexivity.
Qed.

Lemma zlen_eqb_0 {A} (l : list A) : l <> [] -> (zlen l =? 0) = false.
Proof using.
  intros H. destruct l; [contradiction|]. apply Z.eqb_neq. unfold zlen. cbn [length]. lia.
Qed.

Lemma list_split_nth {A} (l : list A) (n : nat) (d : A) :
  (n < length l)%nat -> firstn n l ++ nth n l d :: skipn (S n) l = l.
Proof using.
  intros H. list_ext d.
Qed.

Lemma nth_set_middle {A} (l : list A) (n : nat) (x d : A) :
  (n < length l)%nat -> nth n (firstn n l ++ x :: skipn (S n) l) d = x.
Proof using.
  intros H. rewrite app_nth2 by (rewrite length_firstn; lia). rewrite length_firstn.
  replace (n - Init.Nat.min n (length l))%nat with 0%nat by lia. reflexivity.
Qed.

Lemma length_set_middle {A} (l : list A) (n : nat) (x : A) :
  (n < length l)%nat -> length (firstn n l ++ x :: skipn (S n) l) = length l.
Proof using.
  intros H. list_lengths. lia.
Qed.

Lemma map_set_middle {A B} (f : A -> B) (l : list A) (n : nat) (x d : A) :
  (n < length l)%nat -> f x = f (nth n l d) ->
  map f (firstn n l ++ x :: skipn (S n) l) = map f l.
Proof using.
  intros H Hf. transitivity (map f (firstn n l ++ nth n l d :: skipn (S n) l)).
  - rewrite !map_app. cbn [map]. rewrite Hf. reflexivity.
  - rewrite (list_split_nth l n d H). reflexivity.
Qed.

(** The checks before [t.table[row]] is touched. *)
Ltac table_checks :=
  repeat match goal with
  | H : ((_ || _) = false) |- _ => apply orb_false_iff in H as [? ?]
  | H : ((_ <? _) = false) |- _ => apply Z.ltb_ge in H
  | H : ((_ >=? _) = false) |- _ => rewrite Z.geb_leb in H; apply Z.leb_gt in H
  | H : ((_ >? _) = false) |- _ => rewrite Z.gtb_ltb in H; apply Z.ltb_ge in H
  | H : ((_ =? _) = false) |- _ => apply Z.eqb_neq in H
  end.

(** *** Reading and writing items *)

(** [PutItem] on an error-free table never panics and keeps the number of
    items of every row; when it succeeds, [GetItem] with the same
    arguments returns the trimmed item. *)
Theorem PutItem_GetItem (t : Table) (row col minCols : Z) (item : list Z) :
  terr t = None ->
  exists t', PutItem t row col minCols item = Some t' /\
    map (@length _) (table t') = map (@length _) (table t) /\
    (terr t' = None -> GetItem t' row col minCols = Some (t', trim_space item)).
Proof using.
  intros He. unfold PutItem. rewrite He, absoluteRow_clamp.
  destruct ((row <? 0) || (col <? 0) || (zlen (trim_space item) =? 0)) eqn:Hc.
  { eexists; split; [reflexivity|]. split; [reflexivity|]. cbn. discriminate. }
  table_checks.
  destruct (Z.ltb_spec (absoluteRow t row minCols) 0) as [Hn|Ha0].
  { eexists; split; [reflexivity|]. split; [reflexivity|]. cbn. discriminate. }
  destruct (absoluteRow_found t row minCols Ha0) as [Ha _].
  rewrite (go_index_in _ _ []) by lia. cbn [obind].
  set (a := absoluteRow t row minCols) in *.
  set (r := nth (Z.to_nat a) (table t) []).
  destruct (Z.geb_spec col (zlen r)) as [Hcol|Hcol].
  { eexists; split; [reflexivity|]. split; [reflexivity|]. cbn. discriminate. }
  rewrite (go_index_in _ _ []) by lia. cbn [obind].
  rewrite go_set_in by lia. cbn [obind]. rewrite go_set_in by (unfold zlen in *; lia). cbn [obind].
  eexists; split; [reflexivity|].
  assert (Hmap : map (@length _) (firstn (Z.to_nat a) (table t) ++
                   (firstn (Z.to_nat col) r ++ trim_space item :: skipn (S (Z.to_nat col)) r)
                   :: skipn (S (Z.to_nat a)) (table t)) = map (@length _) (table t)).
  { apply (map_set_middle _ _ _ _ []); [unfold zlen in *; lia|].
    apply length_set_middle. unfold zlen, r in *. lia. }
  split; [exact Hmap|]. intros _.
  unfold GetItem. cbn [terr table].
  replace ((row <? 0) || (col <? 0)) with false
    by (symmetry; apply orb_false_iff; split; apply Z.ltb_ge; lia).
  rewrite absoluteRow_clamp.
  match goal with |- context [absoluteRow ?t' row minCols] =>
    rewrite (absoluteRow_lengths t' t row minCols Hmap) end.
  fold a. destruct (Z.ltb_spec a 0); [lia|].
  rewrite (go_index_in _ _ []) by (unfold zlen in *; list_lengths; lia). cbn [obind].
  rewrite nth_set_middle by (unfold zlen in *; lia).
  destruct (Z.geb_spec col (zlen (firstn (Z.to_nat col) r ++ trim_space item :: skipn (S (Z.to_nat col)) r)))
    as [Hg|Hg].
  { unfold zlen in Hg. rewrite length_set_middle in Hg by (unfold zlen in *; lia). unfold zlen in *. lia. }
  rewrite (go_index_in _ _ []) by (unfold zlen in *; list_lengths; lia). cbn [obind].
  rewrite nth_set_middle by (unfold zlen in *; lia). reflexivity.
Qed.

(** The row built by [InsertItem] after the shift loop, cut at the new item. *)
Lemma shift_down_view {A} (r : list A) (e : A) (d : nat) :
  (d <= length r)%nat ->
  let X := firstn (S d) (r ++ [e]) ++ firstn (length r - d) (skipn d (r ++ [e])) ++
           skipn (S (d + (length r - d))) (r ++ [e]) in
  firstn d X = firstn d r /\ skipn (S d) X = skipn d r.
Proof using.
  intros H X. unfold X; clear X.
  rewrite (skipn_all2 (n := S (d + (length r - d))) (r ++ [e])) by (rewrite length_app; cbn [length]; lia).
  rewrite app_nil_r.
  assert (HL : length (firstn (S d) (r ++ [e])) = S d)
    by (rewrite length_firstn, length_app; cbn [length]; lia).
  split.
  - rewrite firstn_app, HL. replace (d - S d)%nat with 0%nat by lia.
    rewrite firstn_O, app_nil_r, firstn_firstn.
    replace (Nat.min d (S d)) with d by lia.
    rewrite firstn_app. replace (d - length r)%nat with 0%nat by lia.
    rewrite firstn_O, app_nil_r. reflexivity.
  - rewrite skipn_app, HL, Nat.sub_diag, skipn_O.
    rewrite (skipn_all2 (n := S d) (firstn (S d) (r ++ [e]))) by lia. simpl.
    rewrite skipn_app. replace (d - length r)%nat with 0%nat by lia. rewrite skipn_O.
    rewrite firstn_app, length_skipn, Nat.sub_diag, firstn_O, app_nil_r.
    apply firstn_all2. rewrite length_skipn. lia.
Qed.

(** The checks of [InsertItem] and [DeleteItem] up to [t.table[row]]. *)
Ltac item_prefix He Hr Hc Ha :=
  rewrite He;
  replace ((Hr <? 0) || (Hc <? 0)) with false
    by (symmetry; apply orb_false_iff; split; apply Z.ltb_ge; lia);
  rewrite absoluteRow_clamp.

(** [InsertItem] on an error-free table, at an existing row and a column
    up to the row's length, inserts the trimmed item at that column. *)
Theorem InsertItem_inserts (t : Table) (row col minCols : Z) (item : list Z) :
  terr t = None -> 0 <= row -> 0 <= col -> trim_space item <> [] ->
  0 <= absoluteRow t row minCols ->
  col <= zlen (nth (Z.to_nat (absoluteRow t row minCols)) (table t) []) ->
  InsertItem t row col minCols item =
  let a := Z.to_nat (absoluteRow t row minCols) in
  let r := nth a (table t) [] in
  Some (mkTable (firstn a (table t) ++
                 (firstn (Z.to_nat col) r ++ trim_space item :: skipn (Z.to_nat col) r)
                 :: skipn (S a) (table t)) (cmap t) true None).
Proof using.
  intros He Hrow Hcol Hi Ha0 Hlen. unfold InsertItem. rewrite He.
  rewrite (zlen_eqb_0 _ Hi).
  replace ((row <? 0) || (col <? 0) || false) with false
    by (symmetry; rewrite orb_false_r; apply orb_false_iff; split; apply Z.ltb_ge; lia).
  rewrite absoluteRow_clamp.
  destruct (absoluteRow_found t row minCols Ha0) as [Ha _].
  destruct (Z.ltb_spec (absoluteRow t row minCols) 0); [lia|].
  rewrite (go_index_in _ _ []) by lia. cbn [obind].
  set (a := absoluteRow t row minCols) in *.
  set (r := nth (Z.to_nat a) (table t) []) in *.
  destruct (Z.gtb_spec col (zlen r)); [lia|].
  set (d := Z.to_nat col). set (k := (length r - d)%nat).
  pose proof (shift_down_loop_spec [] k d (r ++ [[]]) ltac:(unfold zlen, k, d in *; list_lengths; lia)) as HS.
  replace (Z.of_nat (d + k)) with (zlen (r ++ [[]]) - 1) in HS by (unfold zlen, k, d in *; list_lengths; lia).
  replace (Z.of_nat d) with col in HS by (unfold d; lia).
  replace k with (Z.to_nat (zlen (r ++ [[]]) - 1 - col)) in HS by (unfold zlen, k, d in *; list_lengths; lia).
  unfold shift_down. rewrite HS. cbn [obind].
  rewrite go_set_in by (unfold zlen, k, d in *; list_lengths; lia). cbn [obind].
  rewrite go_set_in by (unfold zlen in *; lia). cbn [obind].
  cbv zeta. do 4 f_equal. fold d.
  replace (Z.to_nat (zlen (r ++ [[]]) - 1 - col)) with (length r - d)%nat
    by (unfold zlen, d in *; rewrite length_app; cbn [length]; lia).
  destruct (shift_down_view r [] d ltac:(unfold zlen, d in *; lia)) as [H1 H2].
  rewrite H1, H2. reflexivity.
Qed.

(** [DeleteItem] on an error-free table, at an existing item, returns the
    item, but instead of moving the later items down it overwrites them
    all with copies of the deleted item before dropping the last entry. *)
Theorem DeleteItem_duplicates (t : Table) (row col minCols : Z) :
  terr t = None -> 0 <= row -> 0 <= col ->
  0 <= absoluteRow t row minCols ->
  col < zlen (nth (Z.to_nat (absoluteRow t row minCols)) (table t) []) ->
  DeleteItem t row col minCols =
  let a := Z.to_nat (absoluteRow t row minCols) in
  let r := nth a (table t) [] in
  Some (mkTable (firstn a (table t) ++
                 (firstn (Z.to_nat col) r ++ repeat (nth (Z.to_nat col) r []) (length r - Z.to_nat col - 1))
                 :: skipn (S a) (table t)) (cmap t) true None,
        nth (Z.to_nat col) r []).
Proof using.
  intros He Hrow Hcol Ha0 Hlen. unfold DeleteItem. rewrite He.
  replace ((row <? 0) || (col <? 0)) with false
    by (symmetry; apply orb_false_iff; split; apply Z.ltb_ge; lia).
  rewrite absoluteRow_clamp.
  destruct (absoluteRow_found t row minCols Ha0) as [Ha _].
  destruct (Z.ltb_spec (absoluteRow t row minCols) 0); [lia|].
  rewrite (go_index_in _ _ []) by lia. cbn [obind].
  set (a := absoluteRow t row minCols) in *.
  set (r := nth (Z.to_nat a) (table t) []) in *.
  destruct (Z.geb_spec col (zlen r)); [lia|].
  rewrite (go_index_in _ _ []) by lia. cbn [obind].
  set (d := Z.to_nat col). set (x := nth d r []).
  pose proof (copy_up_loop_spec (skipn (S d) r) (firstn d r) x) as HC.
  unfold x in HC. rewrite (list_split_nth r d [] ltac:(unfold zlen, d in *; lia)) in HC.
  replace (zlen (firstn d r) + 1) with (col + 1) in HC by (unfold zlen, d in *; list_lengths; lia).
  replace (col + 1 + zlen (skipn (S d) r)) with (zlen r) in HC by (unfold zlen, d in *; list_lengths; lia).
  replace (length (skipn (S d) r)) with (Z.to_nat (zlen r - (col + 1))) in HC
    by (unfold zlen, d in *; list_lengths; lia).
  unfold copy_up. rewrite HC. cbn [obind]. fold x.
  rewrite go_reslice_in by (unfold zlen, d in *; list_lengths; lia). cbn [obind].
  rewrite go_set_in by (unfold zlen in *; lia). cbn [obind].
  cbv zeta. do 5 f_equal. unfold zlen in *. list_ext (@nil Z).
Qed.
End GoIETools.

(** ** Instances on concrete inputs *)

Lemma InsertBytes_DeleteBytes_witness :
  exists b', DeleteBytes (InsertBytes (mkBuffer [1; 2] false None) 1 1) 1 1 = Some b' /\
             buf b' = [1; 2] /\ err b' = None.
Proof.
  apply (InsertBytes_DeleteBytes (mkBuffer [1; 2] false None) 1 1);
    [reflexivity | unfold BufferLength, zlen; simpl; lia | lia].
Defined.

Lemma GetPixelType_ignores_error_witness :
  GetPixelType unit (set_perr unit (mkPvr unit (mkInfo 0 7 0 0 4 4 1 1 1 1 []) tt None 1 false false) ErrPvrIllegalArguments) = 7 /\ GetWidth unit (set_perr unit (mkPvr unit (mkInfo 0 7 0 0 4 4 1 1 1 1 []) tt None 1 false false) ErrPvrIllegalArguments) = 0.
Proof.
  destruct (GetPixelType_ignores_error unit (set_perr unit (mkPvr unit (mkInfo 0 7 0 0 4 4 1 1 1 1 []) tt None 1 false false) ErrPvrIllegalArguments)) as [H1 [H2 _]];
    [discriminate | split; [exact H1 | exact H2]].
Defined.

Lemma DeleteBytes_unchecked_size_witness :
  DeleteBytes (mkBuffer [1; 2] false None) 1 3 = None.
Proof.
  apply (proj1 DeleteBytes_unchecked_size); unfold BufferLength, zlen; simpl;
    [reflexivity | lia | lia].
Defined.

(** A PVR header with the version signature [0x03525650] whose mip-map
    count is 2. *)
Lemma importPvr_failure_keeps_state_witness :
  exists e, perr unit (set_perr unit (mkPvr unit (mkInfo 0 7 0 0 4 4 1 1 1 1 []) tt None 1 false false) (ErrFormat "Unsupported number of texture mip maps")) = Some e /\
            set_perr unit (mkPvr unit (mkInfo 0 7 0 0 4 4 1 1 1 1 []) tt None 1 false false) (ErrFormat "Unsupported number of texture mip maps") = set_perr unit (mkPvr unit (mkInfo 0 7 0 0 4 4 1 1 1 1 []) tt None 1 false false) e.
Proof.
  apply (importPvr_failure_keeps_state sample_inflate unit 1 2 4 8 (fun _ _ _ => 0)
    (fun _ _ _ _ => tt)
    (Some [80; 86; 82; 3; 0; 0; 0; 0; 7; 0; 0; 0; 0; 0; 0; 0; 0; 0; 0; 0; 0; 0; 0; 0; 4; 0; 0; 0; 4; 0; 0; 0; 1; 0; 0; 0; 1; 0; 0; 0; 1; 0; 0; 0; 2; 0; 0; 0; 0; 0; 0; 0])
    (mkPvr unit (mkInfo 0 7 0 0 4 4 1 1 1 1 []) tt None 1 false false) (set_perr unit (mkPvr unit (mkInfo 0 7 0 0 4 4 1 1 1 1 []) tt None 1 false false) (ErrFormat "Unsupported number of texture mip maps")) None);
    [reflexivity | vm_compute; reflexivity | discriminate].
Defined.

Lemma encoding_setters_witness :
  SetQuality unit (mkPvr unit (mkInfo 0 7 0 0 4 4 1 1 1 1 []) tt None 1 false false) 5 = set_quality unit (mkPvr unit (mkInfo 0 7 0 0 4 4 1 1 1 1 []) tt None 1 false false) (Z.max QUALITY_LOW (Z.min QUALITY_HIGH 5)).
Proof. exact (proj1 (proj2 (proj2 (proj2 (encoding_setters unit (mkPvr unit (mkInfo 0 7 0 0 4 4 1 1 1 1 []) tt None 1 false false) 5 eq_refl))))). Defined.

(** [SetQuality(5)] sets no error and stores [QUALITY_HIGH]. *)
Lemma encoding_setters_counterexample :
  perr unit (SetQuality unit (mkPvr unit (mkInfo 0 7 0 0 4 4 1 1 1 1 []) tt None 1 false false) 5) = None /\ quality unit (SetQuality unit (mkPvr unit (mkInfo 0 7 0 0 4 4 1 1 1 1 []) tt None 1 false false) 5) = 2.
Proof. split; reflexivity. Qed.

Lemma GetOffsetArray_count5_index2_witness :
  GetOffsetArray (mkBuffer [0; 0; 0; 0; 100; 0; 0; 0; 5; 0; 0; 0; 2; 0; 0; 0] false None)
    [4; 4; 8; 4; 12; 4; 16] =
  (mkBuffer [0; 0; 0; 0; 100; 0; 0; 0; 5; 0; 0; 0; 2; 0; 0; 0] false None, [132; 148; 164]).
Proof.
  apply (GetOffsetArray_count5_index2
    (mkBuffer [0; 0; 0; 0; 100; 0; 0; 0; 5; 0; 0; 0; 2; 0; 0; 0] false None) 4 4 8 4 12 4 100);
    first [reflexivity | lia].
Defined.

Lemma compress_level_clamped_witness :
  err (fst (CompressInto sample_deflate (mkBuffer [1; 2; 3] false None) 0 3 42 [])) = None.
Proof.
  apply (proj2 (proj2 (compress_level_clamped sample_deflate))
    (mkBuffer [1; 2; 3] false None) 0 3 42 []);
    [reflexivity | lia | lia | unfold BufferLength, zlen; simpl; lia
    | intros x; eexists; reflexivity].
Defined.

Ltac buffer_len := unfold BufferLength, zlen; simpl; lia.

Lemma PutUint8_GetUint8_witness :
  GetUint8 (fst (PutUint8 (mkBuffer [1; 2; 3] false None) 1 200)) 1 =
  (fst (PutUint8 (mkBuffer [1; 2; 3] false None) 1 200), 200).
Proof.
  exact (proj1 (proj2 (PutUint8_GetUint8 (mkBuffer [1; 2; 3] false None) 1 200
    eq_refl ltac:(buffer_len) ltac:(lia)))).
Defined.

Lemma PutUint16_GetUint16_witness :
  GetUint16 (fst (PutUint16 (mkBuffer [1; 2; 3; 4] false None) 1 48879)) 1 =
  (fst (PutUint16 (mkBuffer [1; 2; 3; 4] false None) 1 48879), 48879).
Proof.
  exact (proj1 (proj2 (PutUint16_GetUint16 (mkBuffer [1; 2; 3; 4] false None) 1 48879
    eq_refl ltac:(lia) ltac:(buffer_len) ltac:(lia)))).
Defined.

Lemma PutUint32_GetUint32_witness :
  GetUint32 (fst (PutUint32 (mkBuffer [0; 0; 0; 0; 0] false None) 1 3000000000)) 1 =
  (fst (PutUint32 (mkBuffer [0; 0; 0; 0; 0] false None) 1 3000000000), 3000000000).
Proof.
  exact (proj1 (proj2 (PutUint32_GetUint32 (mkBuffer [0; 0; 0; 0; 0] false None) 1 3000000000
    eq_refl ltac:(lia) ltac:(buffer_len) ltac:(lia)))).
Defined.

Lemma PutInt_GetInt_witness :
  snd (GetInt16 (fst (PutInt16 (mkBuffer [5; 6; 7] false None) 0 (-2))) 0) = -2.
Proof.
  exact (proj1 (proj1 (proj2 (PutInt_GetInt (mkBuffer [5; 6; 7] false None) 0 (-2)
    eq_refl ltac:(lia))) ltac:(buffer_len) ltac:(lia))).
Defined.

Lemma PutBuffer_GetBuffer_witness :
  exists b', PutBuffer (mkBuffer [1; 2; 3; 4] false None) 1 [9; 9] = Some b' /\
             GetBuffer b' 1 2 = Some (b', [9; 9]).
Proof.
  destruct (PutBuffer_GetBuffer (mkBuffer [1; 2; 3; 4] false None) 1 [9; 9]
    eq_refl ltac:(lia) ltac:(buffer_len)) as [b' [H1 [H2 _]]].
  exists b'. split; assumption.
Defined.

Lemma PutStringEx_nil_cmap_witness :
  PutStringEx unit sample_codec (mkBuffer [1; 2; 3; 4; 5] false None) 0 4 [97; 98] None =
  Some (mkBuffer [97; 98; 0; 0; 5] true None).
Proof.
  destruct (PutStringEx_nil_cmap unit sample_codec (mkBuffer [1; 2; 3; 4; 5] false None) 0 4 [97; 98]
    eq_refl ltac:(lia) ltac:(lia) ltac:(buffer_len) ltac:(buffer_len)) as [b' [H1 [_ H3]]].
  rewrite H1, H3 by (simpl; discriminate). reflexivity.
Defined.

Lemma PutStringEx_GetStringEx_witness :
  exists b', PutStringEx unit sample_codec (mkBuffer [1; 2; 3] false None) 1 2 [7; 8] None = Some b' /\
             GetStringEx unit sample_codec b' 1 2 false None = (b', [7; 8]).
Proof.
  exact (PutStringEx_GetStringEx unit sample_codec sample_codec (mkBuffer [1; 2; 3] false None) 1 [7; 8]
    eq_refl ltac:(lia) ltac:(discriminate) ltac:(buffer_len)).
Defined.

Lemma PutStringEx_overrun_panics_witness :
  PutStringEx unit sample_codec (mkBuffer [1; 2; 3] false None) 1 2 [2; 3; 5] None = None.
Proof.
  exact (PutStringEx_overrun_panics unit sample_codec (mkBuffer [1; 2; 3] false None) 1 2 5 []
    eq_refl ltac:(lia) ltac:(lia) ltac:(buffer_len)).
Defined.

Lemma InsertBytes_result_witness :
  InsertBytes (mkBuffer [1; 2; 3] false None) 1 2 = mkBuffer [1; 2; 3; 2; 3] true None.
Proof.
  exact (InsertBytes_result (mkBuffer [1; 2; 3] false None) 1 2 eq_refl ltac:(buffer_len) ltac:(lia)).
Defined.

Lemma DeleteBytes_result_witness :
  DeleteBytes (mkBuffer [1; 2; 3; 4; 5] false None) 1 2 = Some (mkBuffer [1; 2; 3] true None).
Proof.
  exact (DeleteBytes_result (mkBuffer [1; 2; 3; 4; 5] false None) 1 2
    eq_refl ltac:(lia) ltac:(lia) ltac:(buffer_len)).
Defined.

Lemma DecompressReplace_result_witness :
  DecompressReplace (fun l => inl (l ++ l, None)) (mkBuffer [1; 2; 3; 4] false None) 1 2 =
  Some (mkBuffer [1; 2; 3; 2; 3; 4] true None, 4).
Proof.
  exact (DecompressReplace_result (fun l => inl (l ++ l, None)) (mkBuffer [1; 2; 3; 4] false None)
    1 2 [2; 3; 2; 3] eq_refl ltac:(lia) ltac:(lia) ltac:(buffer_len) eq_refl
    ltac:(left; unfold zlen; simpl; lia)).
Defined.

Lemma CompressReplace_result_witness :
  CompressReplace (fun _ l => inl (firstn 1 l)) (mkBuffer [1; 2; 3; 4; 5] false None) 1 2 9 =
  Some (mkBuffer [1; 2; 4; 5] true None, 1).
Proof.
  exact (proj1 (CompressReplace_result (fun _ l => inl (firstn 1 l)) (mkBuffer [1; 2; 3; 4; 5] false None)
    1 2 9 [2] eq_refl ltac:(lia) ltac:(lia) ltac:(buffer_len) eq_refl
    ltac:(right; left; buffer_len))).
Defined.



Lemma SavePvr_compressed_layout_witness :
  exists data,
    SavePvr sample_deflate (Z * Z) fst snd sample_new_rgba sample_rgba_copy 1 2 4 8 16 32 64
      sample_squish_compress
      (mkPvr (Z * Z) (mkInfo 0 7 0 0 4 4 1 1 1 1 [5; 6]) (4, 4) None 1 false false) true =
    Some (mkPvr (Z * Z) (mkInfo 0 7 0 0 4 4 1 1 1 1 [5; 6]) (4, 4) None 1 false false, Some data) /\
    firstn 4 data = [62; 1; 0; 0].
Proof.
  eexists. split.
  - apply (SavePvr_compressed_layout sample_deflate (Z * Z) fst snd sample_new_rgba sample_rgba_copy
      1 2 4 8 16 32 64 sample_squish_compress
      (mkPvr (Z * Z) (mkInfo 0 7 0 0 4 4 1 1 1 1 [5; 6]) (4, 4) None 1 false false)
      (repeat 7 8)); [reflexivity | reflexivity | reflexivity |].
    apply Forall_forall. intros x Hx.
    assert (Hb : forallb (fun y => (0 <=? y) && (y <? 256))
                   (flat_map (fun v => le_bytes 4 (to_unsigned 32 v))
                      (header_fields (mkInfo 0 7 0 0 4 4 1 1 1 1 [5; 6]))
                    ++ [5; 6] ++ repeat 0 256 ++ repeat 7 8) = true)
      by (vm_compute; reflexivity).
    rewrite forallb_forall in Hb. specialize (Hb x Hx).
    apply andb_prop in Hb. destruct Hb as [H1 H2].
    apply Z.leb_le in H1. apply Z.ltb_lt in H2. lia.
  - vm_compute. reflexivity.
Defined.

(** A PVR file with a valid 4x4 BC1 header and 8 bytes of texture data. *)
Lemma importPvr_success_witness :
  importPvr sample_inflate (Z * Z) 1 2 4 8 sample_squish_storage sample_squish_decompress
    (Some ([80; 86; 82; 3; 0; 0; 0; 0; 7; 0; 0; 0; 0; 0; 0; 0; 0; 0; 0; 0; 0; 0; 0; 0;
            4; 0; 0; 0; 4; 0; 0; 0; 1; 0; 0; 0; 1; 0; 0; 0; 1; 0; 0; 0; 1; 0; 0; 0;
            0; 0; 0; 0] ++ repeat 7 8))
    (mkPvr (Z * Z) (mkInfo 0 8 0 0 8 8 1 1 1 1 []) (8, 8) None 1 false false) =
  Some (mkPvr (Z * Z) (mkInfo 0 7 0 0 4 4 1 1 1 1 []) (4, 4) None 1 false false, Some tt) /\
  numMipMaps (info (Z * Z) (mkPvr (Z * Z) (mkInfo 0 7 0 0 4 4 1 1 1 1 []) (4, 4) None 1 false false)) = 1.
Proof.
  assert (H : importPvr sample_inflate (Z * Z) 1 2 4 8 sample_squish_storage sample_squish_decompress
    (Some ([80; 86; 82; 3; 0; 0; 0; 0; 7; 0; 0; 0; 0; 0; 0; 0; 0; 0; 0; 0; 0; 0; 0; 0;
            4; 0; 0; 0; 4; 0; 0; 0; 1; 0; 0; 0; 1; 0; 0; 0; 1; 0; 0; 0; 1; 0; 0; 0;
            0; 0; 0; 0] ++ repeat 7 8))
    (mkPvr (Z * Z) (mkInfo 0 8 0 0 8 8 1 1 1 1 []) (8, 8) None 1 false false) =
    Some (mkPvr (Z * Z) (mkInfo 0 7 0 0 4 4 1 1 1 1 []) (4, 4) None 1 false false, Some tt))
    by (vm_compute; reflexivity).
  split; [exact H |].
  pose proof (importPvr_success sample_inflate (Z * Z) 1 2 4 8 sample_squish_storage
    sample_squish_decompress _ _ _ H) as Hs.
  repeat match type of Hs with _ /\ _ => destruct Hs as [_ Hs] end.
  exact Hs.
Defined.

(** Saving a 4x4 BC1 texture with two bytes of metadata and loading the
    bytes into another [Pvr]. *)
Lemma Save_Load_texture_witness :
  exists data q',
    exportPvr (Z * Z) fst snd sample_new_rgba sample_rgba_copy 1 2 4 8 16 32 64 sample_squish_compress
      (mkPvr (Z * Z) (mkInfo 0 7 0 0 4 4 1 1 1 1 [5; 6]) (4, 4) None 1 false false) =
    Some (mkPvr (Z * Z) (mkInfo 0 7 0 0 4 4 1 1 1 1 [5; 6]) (4, 4) None 1 false false, Some data) /\
    importPvr sample_inflate (Z * Z) 1 2 4 8 sample_squish_storage sample_squish_decompress (Some data)
      (mkPvr (Z * Z) (mkInfo 0 8 0 0 8 8 1 1 1 1 []) (8, 8) None 1 false false) = Some (q', Some tt) /\
    meta (info (Z * Z) q') = [5; 6].
Proof.
  set (p := mkPvr (Z * Z) (mkInfo 0 7 0 0 4 4 1 1 1 1 [5; 6]) (4, 4) None 1 false false).
  set (q := mkPvr (Z * Z) (mkInfo 0 8 0 0 8 8 1 1 1 1 []) (8, 8) None 1 false false).
  set (data := flat_map (fun v => le_bytes 4 (to_unsigned 32 v)) (header_fields (mkInfo 0 7 0 0 4 4 1 1 1 1 [5; 6]))
                 ++ [5; 6] ++ repeat 0 256 ++ repeat 7 8).
  set (q' := mkPvr (Z * Z) (mkInfo 0 7 0 0 4 4 1 1 1 1 [5; 6]) (4, 4) None 1 false false).
  assert (He : exportPvr (Z * Z) fst snd sample_new_rgba sample_rgba_copy 1 2 4 8 16 32 64
                 sample_squish_compress p = Some (p, Some data)) by (vm_compute; reflexivity).
  assert (Hi : importPvr sample_inflate (Z * Z) 1 2 4 8 sample_squish_storage sample_squish_decompress
                 (Some data) q = Some (q', Some tt)) by (vm_compute; reflexivity).
  exists data, q'. split; [exact He | split; [exact Hi |]].
  destruct (Save_Load_texture sample_inflate (Z * Z) fst snd sample_new_rgba sample_rgba_copy
    1 2 4 8 1 16 32 64 sample_squish_storage sample_squish_decompress sample_squish_compress
    p q q' data ltac:(vm_compute; reflexivity) He Hi) as [out [_ [_ Hm]]].
  exact Hm.
Defined.

Lemma PutItem_GetItem_witness :
  exists t', PutItem unit (fun l => l) (mkTable unit [[[1]; [2]]; [[3]]] None false None) 0 1 0 [9] = Some t' /\
             map (@length _) (table unit t') = [2%nat; 1%nat].
Proof.
  destruct (PutItem_GetItem unit (fun l => l) (mkTable unit [[[1]; [2]]; [[3]]] None false None) 0 1 0 [9]
    eq_refl) as [t' [H1 [H2 _]]].
  exists t'. split; [exact H1 | exact H2].
Defined.

Lemma InsertItem_inserts_witness :
  InsertItem unit (fun l => l) (mkTable unit [[[1]; [2]]; [[3]]] None false None) 0 1 0 [9] =
  Some (mkTable unit [[[1]; [9]; [2]]; [[3]]] None true None).
Proof.
  exact (InsertItem_inserts unit (fun l => l) (mkTable unit [[[1]; [2]]; [[3]]] None false None) 0 1 0 [9]
    eq_refl ltac:(lia) ltac:(lia) ltac:(discriminate) ltac:(vm_compute; discriminate)
    ltac:(vm_compute; discriminate)).
Defined.

Lemma DeleteItem_duplicates_witness :
  DeleteItem unit (mkTable unit [[[1]; [2]; [3]; [4]]] None false None) 0 1 0 =
  Some (mkTable unit [[[1]; [2]; [2]]] None true None, [2]).
Proof.
  exact (DeleteItem_duplicates unit (mkTable unit [[[1]; [2]; [3]; [4]]] None false None) 0 1 0
    eq_refl ltac:(lia) ltac:(lia) ltac:(vm_compute; discriminate) ltac:(vm_compute; reflexivity)).
Defined.

